(** * deep-research-python: a shallow embedding of the research orchestrator,
    the recursive text splitter and the prompt trimmer.

    Sources embedded here:
    - [src/ai/text_splitter.py]  ([TextSplitter], [RecursiveCharacterTextSplitter])
    - [src/ai/providers.py]      ([trim_prompt])
    - [src/deep_research.py]     ([generate_serp_queries], [process_serp_result],
                                  [deep_research] and its inner [process_query],
                                  [write_final_report], [write_final_answer])
    - [src/ai/providers.py]      ([AIProvider]: [__init__], [get_model],
                                  [generate_object])
    - [src/feedback.py]          ([generate_feedback])
    - [mcp_deep_research.py]     ([deep_web_research], [generate_research_questions])

    Python [str] values are modelled as [string] (characters are the 256
    code points of [ascii]); [len] is [String.length]; Python [int] values
    are [Z].  The external services (completion service, search service,
    tokenizer) are parameters of the development, each a function of the
    arguments it is called with.  Recursive Python functions carry a [fuel]
    argument, with a lemma that gives the fuel that suffices; the Python
    call stack itself is taken as unbounded.  The progress callback of
    [deep_research] is not modelled: it does not influence the result. *)

From Stdlib Require Import ZArith Lia Ascii String List Bool.
From Stdlib Require DecimalString.
From stdpp Require Import base list strings gmap.

Local Open Scope Z_scope.

(* ===================================================================== *)
(** ** Python string primitives *)
(* ===================================================================== *)

Module PyStr.

(** [len(s)] as a Python int. *)
Definition len (s : string) : Z := Z.of_nat (String.length s).

(** [s[:n]] for a natural [n]. *)
Fixpoint take (n : nat) (s : string) : string :=
  match n, s with
  | O, _ => ""
  | S _, EmptyString => ""
  | S k, String c s' => String c (take k s')
  end.

(** [s[:n]] for a Python int [n]: a negative bound counts from the end,
    and the bound is clamped to the string. *)
Definition slice_to (n : Z) (s : string) : string :=
  if n <? 0 then take (Z.to_nat (len s + n)) s else take (Z.to_nat n) s.

(** [l[:n]] on lists, same convention. *)
Definition list_slice_to {A} (n : Z) (l : list A) : list A :=
  if n <? 0 then firstn (Z.to_nat (Z.of_nat (length l) + n)) l
  else firstn (Z.to_nat n) l.

(** [str.isspace] on one character, for the code points below 256. *)
Definition is_space (c : ascii) : bool :=
  match nat_of_ascii c with
  | 9 | 10 | 11 | 12 | 13 | 28 | 29 | 30 | 31 | 32 | 133 | 160 => true
  | _ => false
  end%nat.

Fixpoint lstrip (s : string) : string :=
  match s with
  | EmptyString => ""
  | String c s' => if is_space c then lstrip s' else s
  end.

Fixpoint rstrip (s : string) : string :=
  match s with
  | EmptyString => ""
  | String c s' =>
      match rstrip s' with
      | EmptyString => if is_space c then "" else String c ""
      | r => String c r
      end
  end.

(** [s.strip()] *)
Definition strip (s : string) : string := rstrip (lstrip s).

(** [sep in s] *)
Fixpoint contains (sep s : string) : bool :=
  String.prefix sep s ||
  match s with
  | EmptyString => false
  | String _ s' => contains sep s'
  end.

(** [s.split(sep)] for a non-empty [sep]: cut at the non-overlapping
    occurrences of [sep], scanning from the left.  [skip] counts the
    characters of a separator that is being stepped over. *)
Fixpoint split_go (sep : string) (skip : nat) (s : string) : list string :=
  match s with
  | EmptyString => [""]
  | String c s' =>
      match skip with
      | S k => split_go sep k s'
      | O =>
          if String.prefix sep s
          then "" :: split_go sep (String.length sep - 1) s'
          else match split_go sep 0 s' with
               | p :: ps => String c p :: ps
               | [] => [String c ""]
               end
      end
  end.

Definition split (sep s : string) : list string := split_go sep 0 s.

(** [list(s)] *)
Fixpoint chars (s : string) : list string :=
  match s with
  | EmptyString => []
  | String c s' => String c "" :: chars s'
  end.

(** [sep.join(l)] *)
Definition join (sep : string) (l : list string) : string := String.concat sep l.

(** [str(n)] for an int. *)
Definition of_Z (n : Z) : string :=
  DecimalString.NilZero.string_of_int (Z.to_int n).

Definition nl : string := String (ascii_of_nat 10) "".

End PyStr.

(* ===================================================================== *)
(** ** text_splitter.py *)
(* ===================================================================== *)

(** Exceptions that the embedded code raises or catches. *)
Inductive exn : Type :=
| ValueError (msg : string)
| RecursionError
| ServiceError (msg : string).

Definition result (A : Type) : Type := exn + A.

Module TextSplitter.
Import PyStr.

(** The object state after [RecursiveCharacterTextSplitter.__init__]. *)
Record t : Type := mk {
  chunk_size : Z;
  chunk_overlap : Z;
  separators : list string
}.

Definition default_separators : list string :=
  [nl +:+ nl; nl; "."; ","; ">"; "<"; " "; ""].

(** [TextSplitter.__init__] followed by the subclass initialiser:
    the check on the overlap runs first, then [separators or [...]]. *)
Definition init (chunk_size chunk_overlap : Z) (seps : option (list string)) : result t :=
  if chunk_overlap >=? chunk_size
  then inl (ValueError "Cannot have chunk_overlap >= chunk_size")
  else inr (mk chunk_size chunk_overlap
               (match seps with
                | Some (s :: l) => s :: l
                | _ => default_separators
                end)).

(** [_join_docs] *)
Definition join_docs (docs : list string) (separator : string) : option string :=
  let text := strip (join separator docs) in
  if decide (text = "") then None else Some text.

(** The inner [while] of [merge_splits]: drop pieces from the front of
    [current_doc]; the loop leaves through [break] when the list is empty. *)
Fixpoint pop_front (self : t) (_len : Z) (current_doc : list string) (total : Z)
  : list string * Z :=
  if (total >? chunk_overlap self)
     || ((total + _len >? chunk_size self) && (total >? 0))
  then match current_doc with
       | d0 :: rest => pop_front self _len rest (total - len d0)
       | [] => ([], total)
       end
  else (current_doc, total).

(** Loop state of [merge_splits]: [docs], [current_doc], [total]. *)
Definition merge_state : Type := list string * list string * Z.

(** One iteration of the [for d in splits] loop. *)
Definition merge_step (self : t) (separator : string) (st : merge_state) (d : string)
  : merge_state :=
  let '(docs, current_doc, total) := st in
  let _len := len d in
  let '(docs, current_doc, total) :=
    if total + _len >=? chunk_size self then
      match current_doc with
      | [] => (docs, current_doc, total)
      | _ :: _ =>
          let docs :=
            match join_docs current_doc separator with
            | Some doc => docs ++ [doc]
            | None => docs
            end in
          let '(current_doc, total) := pop_front self _len current_doc total in
          (docs, current_doc, total)
      end
    else (docs, current_doc, total) in
  (docs, current_doc ++ [d], total + _len).

Definition merge_finish (separator : string) (st : merge_state) : list string :=
  let '(docs, current_doc, _) := st in
  match join_docs current_doc separator with
  | Some doc => docs ++ [doc]
  | None => docs
  end.

(** [merge_splits] *)
Definition merge_splits (self : t) (splits : list string) (separator : string)
  : list string :=
  merge_finish separator (fold_left (merge_step self separator) splits ([], [], 0)).

(** The separator search at the head of [split_text]: the last separator
    is the default, the first one that is empty or occurs in the text wins. *)
Fixpoint first_separator (seps : list string) (text : string) : option string :=
  match seps with
  | [] => None
  | s :: rest =>
      if decide (s = "") then Some s
      else if contains s text then Some s
      else first_separator rest text
  end.

Definition choose_separator (self : t) (text : string) : string :=
  match first_separator (separators self) text with
  | Some s => s
  | None => List.last (separators self) ""
  end.

(** Flush of the pending [good_splits]. *)
Definition flush (self : t) (separator : string) (good_splits final_chunks : list string)
  : list string :=
  match good_splits with
  | [] => final_chunks
  | _ :: _ => final_chunks ++ merge_splits self good_splits separator
  end.

(** The [for s in splits] loop of [split_text]; [rec] is the recursive
    call [self.split_text]. *)
Fixpoint split_loop (self : t) (rec : string -> result (list string))
    (separator : string) (splits good_splits final_chunks : list string)
  : result (list string) :=
  match splits with
  | [] => inr (flush self separator good_splits final_chunks)
  | s :: rest =>
      if len s <? chunk_size self
      then split_loop self rec separator rest (good_splits ++ [s]) final_chunks
      else
        let final_chunks := flush self separator good_splits final_chunks in
        match rec s with
        | inl e => inl e
        | inr other_info =>
            split_loop self rec separator rest [] (final_chunks ++ other_info)
        end
  end.

(** [RecursiveCharacterTextSplitter.split_text].  [fuel] bounds the depth
    of the Python call stack; running out of it is [RecursionError]. *)
Fixpoint split_text (fuel : nat) (self : t) (text : string) : result (list string) :=
  match fuel with
  | O => inl RecursionError
  | S fuel' =>
      let separator := choose_separator self text in
      let splits :=
        if decide (separator = "") then chars text else split separator text in
      split_loop self (split_text fuel' self) separator splits [] []
  end.

(** What [total] stands for in [merge_splits]: the lengths of the
    pending pieces, the separators between them not counted. *)
Definition sum_len (l : list string) : Z :=
  foldr (fun s acc => len s + acc) 0 l.

(** A chunk built by [merge_splits] from the pieces [whole] of one level:
    the stripped join of a non-empty group of them. *)
Definition chunk_of (self : t) (separator : string) (whole : list string)
    (doc : string) : Prop :=
  exists g, g <> [] /\ sublist g whole /\
            doc = strip (join separator g) /\ sum_len g <= chunk_size self.

(** Invariant of the [for d in splits] loop, after the pieces [done]. *)
Definition merge_inv (self : t) (separator : string) (done : list string)
    (st : merge_state) : Prop :=
  let '(docs, cur, total) := st in
  total = sum_len cur /\
  cur `suffix_of` done /\
  (cur = [] \/ sum_len cur <= chunk_size self) /\
  Forall (chunk_of self separator done) docs.

(** A chunk returned by [split_text] on [text]: the stripped join of
    pieces whose lengths sum to at most [chunk_size], and whose join is
    no longer than the text. *)
Definition chunk_ok (self : t) (text : string) (c : string) : Prop :=
  exists sep g,
    c = strip (join sep g) /\ sum_len g <= chunk_size self /\
    (String.length (join sep g) <= String.length text)%nat.

End TextSplitter.

(* ===================================================================== *)
(** ** providers.py: [trim_prompt] *)
(* ===================================================================== *)

Module Providers.
Import PyStr.

Definition MIN_CHUNK_SIZE : Z := 140.

Section Trim.
(** The tokenizer behind [tiktoken.get_encoding]: [None] when the
    encoding cannot be obtained (the call raises and the [except]
    branch runs), otherwise the function [len(encoder.encode(s))]. *)
Variable encoder : option (string -> nat).

(** [trim_prompt] with an explicit context size.  [fuel] bounds the
    depth of the recursion of [trim_prompt] on itself. *)
Fixpoint trim_prompt_fuel (fuel : nat) (prompt : string) (context_size : Z)
  : option string :=
  match fuel with
  | O => None
  | S fuel' =>
      if decide (prompt = "") then Some ""
      else
        let fallback := Some (slice_to (context_size * 3) prompt) in
        match encoder with
        | None => fallback
        | Some count =>
            let length := Z.of_nat (count prompt) in
            if length <=? context_size then Some prompt
            else
              let overflow_tokens := length - context_size in
              let chunk_size := len prompt - overflow_tokens * 3 in
              if chunk_size <? MIN_CHUNK_SIZE
              then Some (slice_to MIN_CHUNK_SIZE prompt)
              else
                match TextSplitter.init chunk_size 0 None with
                | inl _ => fallback
                | inr splitter =>
                    match TextSplitter.split_text
                            (S (String.length prompt)) splitter prompt with
                    | inl _ => fallback
                    | inr chunks =>
                        let trimmed_prompt :=
                          match chunks with
                          | c :: _ => c
                          | [] => ""
                          end in
                        if decide (len trimmed_prompt = len prompt)
                        then trim_prompt_fuel fuel'
                               (slice_to chunk_size prompt) context_size
                        else trim_prompt_fuel fuel' trimmed_prompt context_size
                    end
                end
        end
  end.

(** A string that [trim_prompt] leaves alone, whatever the fuel. *)
Definition fixed_point (context_size : Z) (r : string) : Prop :=
  forall fuel, (0 < fuel)%nat ->
               trim_prompt_fuel fuel r context_size = Some r.

(** The value of the environment variable [CONTEXT_SIZE] (default 128000). *)
Variable CONTEXT_SIZE : Z.

(** [trim_prompt(prompt, context_size=None)].  The recursion is given
    one unit of fuel per character, which always suffices
    (see [trim_prompt_fuel_total]). *)
Definition trim_prompt (prompt : string) (context_size : option Z) : string :=
  let context_size := default CONTEXT_SIZE context_size in
  default prompt
    (trim_prompt_fuel (S (String.length prompt)) prompt context_size).
End Trim.

End Providers.

(* ===================================================================== *)
(** ** deep_research.py *)
(* ===================================================================== *)

Module DeepResearch.
Import PyStr.

Record SerpQuery : Type := mkSerpQuery {
  query : string;
  research_goal : string
}.

Record ResearchResult : Type := mkResearchResult {
  learnings : list string;
  visited_urls : list string
}.

(** One entry of a search response, or of the [results] list handed to
    [process_serp_result]: a dict whose keys [url], [content] and
    [markdown] may each be absent (or hold [None]). *)
Record Item : Type := mkItem {
  item_url : option string;
  item_content : option string;
  item_markdown : option string
}.

(** A search response: the value under the key [results], when present. *)
Definition SearchResponse : Type := option (list Item).

(** The dict returned by [process_serp_result]. *)
Record Processed : Type := mkProcessed {
  p_learnings : list string;
  p_follow_up_questions : list string
}.

(** Truthiness of an optional string ([if x:]). *)
Definition truthy (o : option string) : bool :=
  match o with
  | Some s => if decide (s = "") then false else true
  | None => false
  end.

(** Ghost record of the invocations of [deep_research]: the [breadth]
    and [depth] an invocation was called with, and the invocations its
    branches made in turn.  It does not influence the computed result. *)
#[local] Unset Elimination Schemes.
Inductive call_tree : Type :=
| Call (breadth depth : Z) (children : list call_tree).
#[local] Set Elimination Schemes.

Fixpoint levels (t : call_tree) : nat :=
  match t with
  | Call _ _ children => S (list_max (map levels children))
  end.

(** The [(breadth, depth)] arguments of the invocations [k] calls below
    the root. *)
Fixpoint calls_at (k : nat) (t : call_tree) : list (Z * Z) :=
  match k, t with
  | O, Call b d _ => [(b, d)]
  | S k', Call _ _ children => flat_map (calls_at k') children
  end.

Section Services.
(** Tokenizer and [CONTEXT_SIZE], as in [Providers]. *)
Variable encoder : option (string -> nat).
Variable CONTEXT_SIZE : Z.

(** [system_prompt()] of the module [prompt]. *)
Variable system_prompt : string.

(** The completion service seen through [generate_object] followed by
    [parse_response], for the schema of [generate_serp_queries]
    (system prompt, user prompt, the bound quoted in the schema): an
    exception, or the entry [queries] of the parsed object when it has one. *)
Variable complete_queries :
  string -> string -> Z -> result (option (list SerpQuery)).

(** The same for the schema of [process_serp_result]: the entries
    [learnings] and [follow_up_questions] of the parsed object. *)
Variable complete_learnings :
  string -> string -> Z -> Z ->
  result (option (list string) * option (list string)).

(** [tavily.search(query=..., max_results=...)]: an exception or a response. *)
Variable search : string -> Z -> result SearchResponse.

Local Abbreviation trim_prompt := (Providers.trim_prompt encoder CONTEXT_SIZE).

(** [generate_serp_queries(query, num_queries, learnings)] *)
Definition generate_serp_queries (query : string) (num_queries : Z)
    (learnings : list string) : list SerpQuery :=
  let learnings_text :=
    match learnings with
    | [] => ""
    | _ :: _ =>
        nl +:+ nl +:+ "Here are some learnings from previous research, use them to generate more specific queries: "
           +:+ join nl learnings
    end in
  let prompt :=
    "Given the following prompt from the user, generate a list of SERP queries to research the topic. Return a maximum of "
    +:+ of_Z num_queries
    +:+ " queries, but feel free to return less if the original prompt is clear. Make sure each query is unique and not similar to each other: <prompt>"
    +:+ query +:+ "</prompt>" +:+ learnings_text in
  match complete_queries system_prompt prompt num_queries with
  | inr result =>
      let queries := default [] result in
      list_slice_to num_queries queries
  | inl _ => []
  end.

(** The loop of [process_serp_result] that gathers the contents. *)
Definition item_contents (item : Item) : list string :=
  if truthy (item_markdown item)
  then [trim_prompt (default "" (item_markdown item)) (Some 25000)]
  else if truthy (item_content item)
  then [trim_prompt (default "" (item_content item)) (Some 25000)]
  else [].

(** [process_serp_result(query, result, num_learnings, num_follow_up_questions)] *)
Definition process_serp_result (query : string) (result : SearchResponse)
    (num_learnings num_follow_up_questions : Z) : Processed :=
  let contents :=
    match result with
    | Some items => flat_map item_contents items
    | None => []
    end in
  match contents with
  | [] => mkProcessed [] []
  | _ :: _ =>
      let contents_text :=
        join nl (map (fun content =>
                        "<content>" +:+ nl +:+ content +:+ nl +:+ "</content>")
                     contents) in
      let prompt :=
        trim_prompt
          ("Given the following contents from a SERP search for the query <query>"
           +:+ query +:+ "</query>, generate a list of learnings from the contents. Return a maximum of "
           +:+ of_Z num_learnings
           +:+ " learnings, but feel free to return less if the contents are clear. Make sure each learning is unique and not similar to each other. The learnings should be concise and to the point, as detailed and information dense as possible. Make sure to include any entities like people, places, companies, products, things, etc in the learnings, as well as any exact metrics, numbers, or dates. The learnings will be used to research the topic further."
           +:+ nl +:+ nl +:+ "<contents>" +:+ contents_text +:+ "</contents>")
          None in
      match complete_learnings system_prompt prompt
              num_learnings num_follow_up_questions with
      | inr (learnings, follow_up_questions) =>
          mkProcessed (default [] learnings) (default [] follow_up_questions)
      | inl _ => mkProcessed [] []
      end
  end.

(** The loop of [process_query] over the items of a search response:
    the pair [(new_urls, scraped_contents)]. *)
Definition scrape_item (item : Item) : list (string * Item) :=
  let url := item_url item in
  let content :=
    if truthy (item_content item) then default "" (item_content item)
    else default "" (item_markdown item) in
  if truthy url
  then [(default "" url, mkItem url None (Some content))]
  else [].

Definition scrape (result : SearchResponse) : list string * list Item :=
  match result with
  | Some items =>
      let found := flat_map scrape_item items in
      (map fst found, map snd found)
  | None => ([], [])
  end.

(** The type of [deep_research] itself, for the recursive call. *)
Definition research_fn : Type :=
  string -> Z -> Z -> option (list string) -> option (list string) ->
  option (ResearchResult * call_tree).

(** The [try] block of the inner coroutine [process_query], for an
    invocation with the given [breadth], [depth], [learnings] and
    [visited_urls]: the exception it raises, or its result paired with the
    invocations made by this branch (none or one).  [None] only when the
    recursive call is out of fuel. *)
Definition process_query_body (rec : research_fn) (breadth depth : Z)
    (learnings visited_urls : list string) (serp_query : SerpQuery)
  : option (result (ResearchResult * list call_tree)) :=
  match search (query serp_query) 5 with
  | inl e => Some (inl e)
  | inr result =>
      let '(new_urls, scraped_contents) := scrape result in
      let new_breadth := Z.max 1 (breadth / 2) in
      let new_depth := depth - 1 in
      let processed :=
        process_serp_result (query serp_query) (Some scraped_contents)
          3 new_breadth in
      let all_learnings := learnings ++ p_learnings processed in
      let all_urls := visited_urls ++ new_urls in
      if new_depth >? 0 then
        let next_query :=
          strip (nl +:+ "Previous research goal: " +:+ research_goal serp_query
                 +:+ nl +:+ "Follow-up research directions: "
                 +:+ join nl (p_follow_up_questions processed)
                 +:+ nl +:+ "                    ") in
        '(r, t) ← rec next_query new_breadth new_depth
                    (Some all_learnings) (Some all_urls);
        Some (inr (r, [t]))
      else Some (inr (mkResearchResult all_learnings all_urls, []))
  end.

(** [process_query]: the [try] block under its [except Exception] handler,
    which turns any exception into the empty result. *)
Definition process_query (rec : research_fn) (breadth depth : Z)
    (learnings visited_urls : list string) (serp_query : SerpQuery)
  : option (ResearchResult * list call_tree) :=
  outcome ← process_query_body rec breadth depth learnings visited_urls serp_query;
  Some (match outcome with
        | inl _ => (mkResearchResult [] [], [])
        | inr r => r
        end).

(** The merge after [asyncio.gather]: both sets start from the seed and
    are updated with every branch result; [list(set)] is rendered by
    [elements], so the order of the returned lists is the order of the
    set, which callers must not rely on. *)
Definition merge (learnings visited_urls : list string)
    (results : list ResearchResult) : ResearchResult :=
  let all_learnings : gset string :=
    fold_left (fun acc r => acc ∪ list_to_set (DeepResearch.learnings r))
              results (list_to_set learnings) in
  let all_urls : gset string :=
    fold_left (fun acc r => acc ∪ list_to_set (DeepResearch.visited_urls r))
              results (list_to_set visited_urls) in
  mkResearchResult (elements all_learnings) (elements all_urls).

(** [deep_research(query, breadth, depth, learnings, visited_urls)] with
    no progress callback.  Branches are independent of each other, so
    they are evaluated in the order of [serp_queries]; [fuel] bounds
    the depth of the recursion. *)
Fixpoint deep_research_fuel (fuel : nat) (query : string) (breadth depth : Z)
    (learnings visited_urls : option (list string))
  : option (ResearchResult * call_tree) :=
  match fuel with
  | O => None
  | S fuel' =>
      let learnings := default [] learnings in
      let visited_urls := default [] visited_urls in
      let serp_queries := generate_serp_queries query breadth learnings in
      match serp_queries with
      | [] => Some (mkResearchResult learnings visited_urls, Call breadth depth [])
      | _ :: _ =>
          results ← mapM (process_query (deep_research_fuel fuel')
                            breadth depth learnings visited_urls)
                         serp_queries;
          Some (merge learnings visited_urls (map fst results),
                Call breadth depth (concat (map snd results)))
      end
  end.

(** Fuel that covers every recursion of an invocation at [depth]. *)
Definition fuel_for (depth : Z) : nat := Z.to_nat (Z.max 1 depth).

Definition deep_research (query : string) (breadth depth : Z)
    (learnings visited_urls : option (list string))
  : option (ResearchResult * call_tree) :=
  deep_research_fuel (fuel_for depth) query breadth depth learnings visited_urls.

End Services.
End DeepResearch.

(* ===================================================================== *)
(** ** The concurrency gate of [deep_research] *)
(* ===================================================================== *)

(** [deep_research] creates [asyncio.Semaphore(CONCURRENCY_LIMIT)] in its own
    body, wraps every branch body [process_query] in [async with semaphore],
    and awaits the recursive call inside that block.  The module below is
    the transition system of these three places: the state lists the
    invocations made so far, each with its own semaphore, and for every
    branch of an invocation where its body stands. *)
Module Gate.

(** Where the body of [process_query] stands with respect to
    [async with semaphore]. *)
Inductive phase : Type :=
| Waiting     (* before the semaphore is acquired *)
| Running     (* inside the [async with] block *)
| Finished.   (* after the block, semaphore released *)

Record branch : Type := mkBranch {
  b_phase : phase;
  b_child : option nat   (* the invocation this body awaits, if it recursed *)
}.

Record invocation : Type := mkInvocation {
  i_breadth : Z;
  i_depth : Z;
  i_branches : list branch
}.

Definition state : Type := list invocation.

Inductive event : Type :=
| Acquire (i j : nat)               (* branch [j] of invocation [i] enters the block *)
| Recurse (i j : nat) (n : nat)     (* it calls [deep_research]; the plan has [n] queries *)
| Release (i j : nat).              (* it leaves the block *)

Definition is_running (b : branch) : bool :=
  match b_phase b with Running => true | _ => false end.

Definition is_finished (b : branch) : bool :=
  match b_phase b with Finished => true | _ => false end.

(** Branch bodies inside their [async with] block, in a list of branches
    and among the branches of one invocation. *)
Definition running (l : list branch) : nat :=
  length (filter (fun b => is_running b = true) l).

Definition running_in (inv : invocation) : nat := running (i_branches inv).

Definition flag (b : branch) : nat := if is_running b then 1 else 0.

(** The gate property of one invocation. *)
Definition gated (capacity : nat) (inv : invocation) : Prop :=
  (running_in inv <= capacity)%nat.

(** Branch bodies inside an [async with] block in the whole call tree. *)
Definition in_flight (s : state) : nat :=
  sum_list (map running_in s).

Definition set_branch (s : state) (i j : nat) (b : branch) : state :=
  match s !! i with
  | Some inv =>
      <[i := mkInvocation (i_breadth inv) (i_depth inv) (<[j := b]> (i_branches inv))]> s
  | None => s
  end.

Definition get_branch (s : state) (i j : nat) : option (invocation * branch) :=
  inv ← s !! i; b ← i_branches inv !! j; Some (inv, b).

Definition all_finished (inv : invocation) : bool :=
  forallb is_finished (i_branches inv).

Section Capacity.
(** [CONCURRENCY_LIMIT] *)
Variable capacity : nat.

Definition step (s : state) (e : event) : option state :=
  match e with
  | Acquire i j =>
      '(inv, b) ← get_branch s i j;
      match b_phase b with
      | Waiting =>
          if decide (running_in inv < capacity)%nat
          then Some (set_branch s i j (mkBranch Running (b_child b)))
          else None
      | _ => None
      end
  | Recurse i j n =>
      '(inv, b) ← get_branch s i j;
      match b_phase b, b_child b with
      | Running, None =>
          if i_depth inv - 1 >? 0 then
            let child :=
              mkInvocation (Z.max 1 (i_breadth inv / 2)) (i_depth inv - 1)
                (replicate n (mkBranch Waiting None)) in
            Some (set_branch s i j (mkBranch Running (Some (length s))) ++ [child])
          else None
      | _, _ => None
      end
  | Release i j =>
      '(inv, b) ← get_branch s i j;
      match b_phase b with
      | Running =>
          let done :=
            match b_child b with
            | None => true
            | Some c =>
                match s !! c with
                | Some cinv => all_finished cinv
                | None => false
                end
            end in
          if done then Some (set_branch s i j (mkBranch Finished (b_child b)))
          else None
      | _ => None
      end
  end.

Fixpoint run (s : state) (es : list event) : option state :=
  match es with
  | [] => Some s
  | e :: es' => s' ← step s e; run s' es'
  end.
End Capacity.

(** The state right after the root invocation has planned [n] queries. *)
Definition init (breadth depth : Z) (n : nat) : state :=
  [mkInvocation breadth depth (replicate n (mkBranch Waiting None))].

(** The schedule in which both branches of a root invocation at depth 2
    have entered their block and recursed, and a branch of the first child
    enters its own. *)
Definition three_in_flight : list event :=
  [Acquire 0 0; Recurse 0 0 1;
   Acquire 0 1; Recurse 0 1 1;
   Acquire 1 0].

End Gate.

(* ===================================================================== *)
(** ** Stub services, for the concrete runs *)
(* ===================================================================== *)

Module Stubs.
Import DeepResearch.

(** Token count: one token per character. *)
Definition encoder : option (string -> nat) := Some String.length.

Definition CONTEXT_SIZE : Z := 128000.

Definition system_prompt : string := "You are an expert researcher.".

(** A planner that always proposes the two queries [good] and [bad]. *)
Definition complete_queries (_ _ : string) (_ : Z)
  : result (option (list SerpQuery)) :=
  inr (Some [mkSerpQuery "good" "goal one"; mkSerpQuery "bad" "goal two"]).

(** A planner whose completion call times out. *)
Definition complete_queries_down (_ _ : string) (_ : Z)
  : result (option (list SerpQuery)) :=
  inl (ServiceError "timeout").

(** An extractor that returns four learnings and four follow-up questions,
    whatever bound the schema quotes. *)
Definition complete_learnings (_ _ : string) (_ _ : Z)
  : result (option (list string) * option (list string)) :=
  inr (Some ["l1"; "l2"; "l3"; "l4"], Some ["f1"; "f2"; "f3"; "f4"]).

(** An extractor whose completion call times out. *)
Definition complete_learnings_down (_ _ : string) (_ _ : Z)
  : result (option (list string) * option (list string)) :=
  inl (ServiceError "timeout").

(** A search service that raises on the query [bad], and otherwise returns
    one page with content and one page without. *)
Definition search (q : string) (_ : Z) : result SearchResponse :=
  if decide (q = "bad") then inl (ServiceError "timeout")
  else inr (Some [mkItem (Some "http://a") (Some "Paris is the capital of France") None;
                  mkItem (Some "http://b") None None]).

(** A search service that never raises and finds nothing. *)
Definition search_nothing (_ : string) (_ : Z) : result SearchResponse :=
  inr (Some []).

End Stubs.


(* ===================================================================== *)
(** ** text_splitter.py: documents *)
(* ===================================================================== *)

Module Documents.
Import PyStr TextSplitter.

(** [TextSplitter.create_documents]: the chunks of every text, in order.
    Each call of [split_text] has its own stack, with one unit of fuel per
    character of its text; an exception of [split_text] leaves the loop. *)
Fixpoint create_documents (self : t) (texts : list string) : result (list string) :=
  match texts with
  | [] => inr []
  | text :: rest =>
      match split_text (S (String.length text)) self text with
      | inl e => inl e
      | inr chunks =>
          match create_documents self rest with
          | inl e => inl e
          | inr documents => inr (chunks ++ documents)
          end
      end
  end.

(** [TextSplitter.split_documents] *)
Definition split_documents (self : t) (documents : list string) : result (list string) :=
  create_documents self documents.

End Documents.

(* ===================================================================== *)
(** ** Bounds on the call tree of [deep_research] *)
(* ===================================================================== *)

Module CallTreeBounds.

(** The largest number of invocations [k] calls below a root of breadth
    [b]: each invocation has at most [breadth] branches, and each branch
    calls at most once, with the breadth halved and never below one. *)
Fixpoint fan_out (b : Z) (k : nat) : Z :=
  match k with
  | O => 1
  | S k' => b * fan_out (Z.max 1 (b / 2)) k'
  end.

End CallTreeBounds.

(* ===================================================================== *)
(** ** Where the returned learnings and urls come from *)
(* ===================================================================== *)

Module Provenance.
Import DeepResearch.

(** A learning that the completion service returned to some extraction. *)
Definition extracted (system_prompt : string)
    (complete_learnings : string -> string -> Z -> Z ->
                          result (option (list string) * option (list string)))
    (x : string) : Prop :=
  exists prompt n m ls fs,
    complete_learnings system_prompt prompt n m = inr (Some ls, fs) /\ x ∈ ls.

(** A url of an item that the search service returned to some search. *)
Definition found (search : string -> Z -> result SearchResponse) (u : string) : Prop :=
  exists q n items item,
    search q n = inr (Some items) /\ item ∈ items /\ item_url item = Some u.

End Provenance.

(* ===================================================================== *)
(** ** providers.py: [AIProvider] *)
(* ===================================================================== *)

Module AIProvider.
Import PyStr.

(** The environment variables the provider reads; [None] when unset. *)
Record Environ : Type := mkEnviron {
  OPENAI_KEY : option string;
  NVIDIA_API_KEY : option string;
  FIREWORKS_KEY : option string;
  CUSTOM_MODEL : option string
}.

(** An [OpenAI(api_key=..., base_url=...)] client. *)
Record Client : Type := mkClient {
  api_key : string;
  base_url : option string
}.

(** The attributes of the provider object. *)
Record t : Type := mkProvider {
  openai_client : option Client;
  nvidia_client : option Client;
  fireworks_client : option Client;
  custom_client : option Client
}.

(** [os.getenv(name)] used as a condition. *)
Definition is_set (v : option string) : bool := DeepResearch.truthy v.

(** [AIProvider.__init__] *)
Definition init (env : Environ) : t :=
  let openai_client :=
    if is_set (OPENAI_KEY env)
    then Some (mkClient (default "" (OPENAI_KEY env)) None)
    else None in
  let nvidia_client :=
    if is_set (NVIDIA_API_KEY env)
    then Some (mkClient (default "" (NVIDIA_API_KEY env))
                 (Some "https://integrate.api.nvidia.com/v1"))
    else None in
  let fireworks_client :=
    if is_set (FIREWORKS_KEY env)
    then Some (mkClient (default "" (FIREWORKS_KEY env))
                 (Some "https://api.fireworks.ai/inference/v1"))
    else None in
  let custom_client :=
    if is_set (CUSTOM_MODEL env) then openai_client else None in
  mkProvider openai_client nvidia_client fireworks_client custom_client.

(** [AIProvider.get_model]; the environment is read again at the call. *)
Definition get_model (env : Environ) (self : t) : result (Client * string) :=
  match custom_client self, is_set (CUSTOM_MODEL env) with
  | Some client, true => inr (client, default "" (CUSTOM_MODEL env))
  | _, _ =>
      match nvidia_client self with
      | Some client => inr (client, "meta/llama-3.1-70b-instruct")
      | None =>
          match fireworks_client self with
          | Some client => inr (client, "accounts/fireworks/models/deepseek-r1")
          | None =>
              match openai_client self with
              | Some client => inr (client, "gpt-4o-mini")
              | None =>
                  inl (ValueError "No model found. Please set at least one API key.")
              end
          end
      end
  end.

(** The keyword arguments of [client.chat.completions.create] that
    [generate_object] chooses: the JSON-object response format, or one
    forced tool whose parameters are the schema. *)
Inductive Mode (Schema : Type) : Type :=
| JsonObject
| ForcedTool (name : string) (parameters : Schema).
Arguments JsonObject {Schema}.
Arguments ForcedTool {Schema} name parameters.

Record Request (Schema : Type) : Type := mkRequest {
  r_model : string;
  r_system : string;
  r_user : string;
  r_mode : Mode Schema;
  r_timeout : Z
}.
Arguments mkRequest {Schema} r_model r_system r_user r_mode r_timeout.

Section Generate.
(** JSON schemas and API responses are opaque here. *)
Variable Schema : Type.
Variable Response : Type.

(** [client.chat.completions.create(...)]: an exception or a response. *)
Variable create : Client -> Request Schema -> result Response.

(** [AIProvider.generate_object] *)
Definition generate_object (env : Environ) (self : t)
    (system_prompt user_prompt : string) (schema : Schema) (timeout : Z)
  : result Response :=
  match get_model env self with
  | inl e => inl e
  | inr (client, model_name) =>
      if contains "gpt-" model_name
      then create client
             (mkRequest model_name system_prompt user_prompt JsonObject timeout)
      else create client
             (mkRequest model_name system_prompt user_prompt
                (ForcedTool "respond_with_structure" schema) timeout)
  end.
(** A completion as the callers make it: [generate_object] followed by
    [parse_response] and the reading of the entry the caller wants, which
    raises or returns a value. *)
Definition complete {A : Type} (env : Environ) (self : t)
    (parse : Response -> result A)
    (system_prompt user_prompt : string) (schema : Schema) (timeout : Z)
  : result A :=
  match generate_object env self system_prompt user_prompt schema timeout with
  | inl e => inl e
  | inr response => parse response
  end.
End Generate.

End AIProvider.

(* ===================================================================== *)
(** ** deep_research.py and feedback.py: reports, answers, questions *)
(* ===================================================================== *)

Module Reports.
Import PyStr.

Section Services.
Variable encoder : option (string -> nat).
Variable CONTEXT_SIZE : Z.
Variable system_prompt : string.

(** The completion service seen through [generate_object] followed by
    [parse_response], for the schemas of [write_final_report],
    [write_final_answer] and [generate_feedback]: an exception, or the
    entry [report_markdown], [exact_answer] or [questions] of the parsed
    object when it has one. *)
Variable complete_report : string -> string -> result (option string).
Variable complete_answer : string -> string -> result (option string).
Variable complete_questions : string -> string -> Z -> result (option (list string)).

Local Abbreviation trim_prompt := (Providers.trim_prompt encoder CONTEXT_SIZE).

Definition learnings_string (learnings : list string) : string :=
  join nl (map (fun learning =>
                  "<learning>" +:+ nl +:+ learning +:+ nl +:+ "</learning>")
               learnings).

(** The trailing section of a report: one line per visited url. *)
Definition urls_section (visited_urls : list string) : string :=
  nl +:+ nl +:+ "## Sources" +:+ nl +:+ nl
  +:+ join nl (map (fun url => "- " +:+ url) visited_urls).

(** [write_final_report(prompt, learnings, visited_urls)] *)
Definition write_final_report (prompt : string) (learnings visited_urls : list string)
  : string :=
  let report_prompt :=
    trim_prompt
      ("Given the following prompt from the user, write a final report on the topic using the learnings from research. Make it as as detailed as possible, aim for 3 or more pages, include ALL the learnings from research:"
       +:+ nl +:+ nl +:+ "<prompt>" +:+ prompt +:+ "</prompt>" +:+ nl +:+ nl
       +:+ "Here are all the learnings from previous research:" +:+ nl +:+ nl
       +:+ "<learnings>" +:+ nl +:+ learnings_string learnings +:+ nl +:+ "</learnings>")
      None in
  match complete_report system_prompt report_prompt with
  | inr result =>
      let report := default "" result in
      report +:+ urls_section visited_urls
  | inl _ => "Error generating report"
  end.

(** [write_final_answer(prompt, learnings)] *)
Definition write_final_answer (prompt : string) (learnings : list string) : string :=
  let answer_prompt :=
    trim_prompt
      ("Given the following prompt from the user, write a final answer on the topic using the learnings from research. Follow the format specified in the prompt. Do not yap or babble or include any other text than the answer besides the format specified in the prompt. Keep the answer as concise as possible - usually it should be just a few words or maximum a sentence. Try to follow the format specified in the prompt (for example, if the prompt is using Latex, the answer should be in Latex. If the prompt gives multiple answer choices, the answer should be one of the choices)."
       +:+ nl +:+ nl +:+ "<prompt>" +:+ prompt +:+ "</prompt>" +:+ nl +:+ nl
       +:+ "Here are all the learnings from research on the topic that you can use to help answer the prompt:"
       +:+ nl +:+ nl
       +:+ "<learnings>" +:+ nl +:+ learnings_string learnings +:+ nl +:+ "</learnings>")
      None in
  match complete_answer system_prompt answer_prompt with
  | inr result => default "" result
  | inl _ => "Error generating answer"
  end.

(** [generate_feedback(query, num_questions)] of feedback.py *)
Definition generate_feedback (query : string) (num_questions : Z) : list string :=
  let prompt :=
    "Given the following query from the user, ask some follow up questions to clarify the research direction. Return a maximum of "
    +:+ of_Z num_questions
    +:+ " questions, but feel free to return less if the original query is clear: <query>"
    +:+ query +:+ "</query>" in
  match complete_questions system_prompt prompt num_questions with
  | inr result =>
      let questions := default [] result in
      list_slice_to num_questions questions
  | inl _ => []
  end.

End Services.
End Reports.

(* ===================================================================== *)
(** ** mcp_deep_research.py: the tool handlers *)
(* ===================================================================== *)

Module McpServer.
Import PyStr.

(** The [arguments] dict of a tool call; [None] for a missing key.  The
    numeric arguments are ints, on which [int(...)] is the identity. *)
Record Arguments : Type := mkArguments {
  a_query : option string;
  a_breadth : option Z;
  a_depth : option Z;
  a_output_type : option string;
  a_generate_followup : option bool;
  a_num_questions : option Z
}.

(** The lines [f"{i}. {item}\n"] of [enumerate(items, i)]. *)
Fixpoint numbered (i : Z) (items : list string) : string :=
  match items with
  | [] => ""
  | item :: rest => of_Z i +:+ ". " +:+ item +:+ nl +:+ numbered (i + 1) rest
  end.

(** The lines [f"- {item}\n"]. *)
Fixpoint dashed (items : list string) : string :=
  match items with
  | [] => ""
  | item :: rest => "- " +:+ item +:+ nl +:+ dashed rest
  end.

Section Services.
Variable encoder : option (string -> nat).
Variable CONTEXT_SIZE : Z.
Variable system_prompt : string.
Variable complete_queries :
  string -> string -> Z -> result (option (list DeepResearch.SerpQuery)).
Variable complete_learnings :
  string -> string -> Z -> Z ->
  result (option (list string) * option (list string)).
Variable search : string -> Z -> result DeepResearch.SearchResponse.
Variable complete_report : string -> string -> result (option string).
Variable complete_answer : string -> string -> result (option string).
Variable complete_questions : string -> string -> Z -> result (option (list string)).

Local Abbreviation deep_research :=
  (DeepResearch.deep_research encoder CONTEXT_SIZE system_prompt
     complete_queries complete_learnings search).
Local Abbreviation write_final_report :=
  (Reports.write_final_report encoder CONTEXT_SIZE system_prompt complete_report).
Local Abbreviation write_final_answer :=
  (Reports.write_final_answer encoder CONTEXT_SIZE system_prompt complete_answer).
Local Abbreviation generate_feedback :=
  (Reports.generate_feedback system_prompt complete_questions).

(** The text of the answer output. *)
Definition answer_text (answer : string) (result : DeepResearch.ResearchResult)
  : string :=
  let learnings := DeepResearch.learnings result in
  let visited_urls := DeepResearch.visited_urls result in
  let response_text :=
    "**Research Answer:**" +:+ nl +:+ nl +:+ answer +:+ nl +:+ nl in
  let response_text :=
    match learnings with
    | [] => response_text
    | _ :: _ =>
        response_text +:+ "**Key Findings:**" +:+ nl
        +:+ numbered 1 (firstn 5 learnings) +:+ nl
    end in
  match visited_urls with
  | [] => response_text
  | _ :: _ =>
      let response_text :=
        response_text +:+ "**Sources:** "
        +:+ of_Z (Z.of_nat (length visited_urls)) +:+ " URLs researched" +:+ nl
        +:+ dashed (firstn 5 visited_urls) in
      if Z.of_nat (length visited_urls) >? 5
      then response_text +:+ "... and "
           +:+ of_Z (Z.of_nat (length visited_urls) - 5) +:+ " more sources" +:+ nl
      else response_text
  end.

(** The text of the report output. *)
Definition report_text (report : string) (breadth depth : Z)
    (result : DeepResearch.ResearchResult) : string :=
  "**Deep Research Report**" +:+ nl +:+ nl +:+ report +:+ nl +:+ nl
  +:+ "**Research Statistics:**" +:+ nl
  +:+ "- Breadth: " +:+ of_Z breadth +:+ " queries per iteration" +:+ nl
  +:+ "- Depth: " +:+ of_Z depth +:+ " research iterations" +:+ nl
  +:+ "- Total findings: "
  +:+ of_Z (Z.of_nat (length (DeepResearch.learnings result))) +:+ nl
  +:+ "- Sources analyzed: "
  +:+ of_Z (Z.of_nat (length (DeepResearch.visited_urls result))) +:+ nl.

(** The handler [deep_web_research]: the text of the single [TextContent]
    it returns.  [None] only if [deep_research] were out of fuel. *)
Definition deep_web_research (arguments : Arguments) : option string :=
  let query := default "" (a_query arguments) in
  let breadth := default 3 (a_breadth arguments) in
  let depth := default 2 (a_depth arguments) in
  let output_type := default "report" (a_output_type arguments) in
  let generate_followup := default true (a_generate_followup arguments) in
  if decide (query = "")
  then Some "Error: Query parameter is required for research."
  else
    let breadth := Z.max 1 (Z.min 10 breadth) in
    let depth := Z.max 1 (Z.min 5 depth) in
    let output_type :=
      if decide (output_type = "report") then output_type
      else if decide (output_type = "answer") then output_type
      else "report" in
    let combined_query :=
      if generate_followup && bool_decide (output_type = "report") then
        match generate_feedback query 3 with
        | [] => query
        | (_ :: _) as follow_up_questions =>
            let questions_text :=
              join nl (map (fun q => "- " +:+ q) follow_up_questions) in
            query +:+ nl +:+ nl +:+ "Additional research directions:" +:+ nl
            +:+ questions_text
        end
      else query in
    '(result, _) ← deep_research combined_query breadth depth None None;
    if decide (output_type = "answer")
    then Some (answer_text
                 (write_final_answer query (DeepResearch.learnings result)) result)
    else Some (report_text
                 (write_final_report query (DeepResearch.learnings result)
                    (DeepResearch.visited_urls result))
                 breadth depth result).

(** The handler [generate_research_questions]: the text it returns. *)
Definition generate_research_questions (arguments : Arguments) : string :=
  let query := default "" (a_query arguments) in
  let num_questions := default 3 (a_num_questions arguments) in
  if decide (query = "")
  then "Error: Query parameter is required."
  else
    let num_questions := Z.max 1 (Z.min 10 num_questions) in
    match generate_feedback query num_questions with
    | [] =>
        "The research query '" +:+ query
        +:+ "' appears to be sufficiently clear and specific. No additional clarifying questions are needed."
    | (_ :: _) as questions =>
        "**Follow-up Research Questions for:** " +:+ query +:+ nl +:+ nl
        +:+ numbered 1 questions +:+ nl
        +:+ "*These questions can help refine your research direction and ensure comprehensive coverage of the topic.*"
    end.

End Services.
End McpServer.

(* ===================================================================== *)
(** ** More stub services, for the concrete runs *)
(* ===================================================================== *)

Module FrontStubs.

(** A report writer that answers with a one-line report. *)
Definition complete_report (_ _ : string) : result (option string) :=
  inr (Some "# Paris").

(** An answer writer that answers in one word. *)
Definition complete_answer (_ _ : string) : result (option string) :=
  inr (Some "Paris").

(** A feedback service that always asks four questions. *)
Definition complete_questions (_ _ : string) (_ : Z) : result (option (list string)) :=
  inr (Some ["q1"; "q2"; "q3"; "q4"]).

(** An environment with no usable provider key: one key is set to the
    empty string, and a custom model is named without [OPENAI_KEY]. *)
Definition no_key : AIProvider.Environ :=
  AIProvider.mkEnviron None (Some "") None (Some "my-model").

End FrontStubs.

(* ===================================================================== *)
(** * Properties *)
(* ===================================================================== *)

(** ** Facts about the string primitives *)

Module PyStrFacts.
Import PyStr.
Local Open Scope nat_scope.

Lemma length_app (a b : string) :
  String.length (a +:+ b) = String.length a + String.length b.
Proof. induction a as [|c a IH]; simpl; [done | by rewrite IH]. Qed.

Lemma length_take n s : String.length (take n s) = Nat.min n (String.length s).
Proof.
  revert s; induction n as [|n IH]; intros [|c s]; simpl; try done.
  by rewrite IH.
Qed.

Lemma take_all n s : String.length s <= n -> take n s = s.
Proof.
  revert s; induction n as [|n IH]; intros [|c s]; simpl; intros H; try done.
  - lia.
  - f_equal. apply IH. lia.
Qed.

Lemma length_zero_empty s : String.length s = 0 -> s = "".
Proof. by destruct s. Qed.

Lemma length_lstrip s : String.length (lstrip s) <= String.length s.
Proof.
  induction s as [|c s IH]; simpl; [done|].
  destruct (is_space c); simpl; lia.
Qed.

Lemma length_rstrip s : String.length (rstrip s) <= String.length s.
Proof.
  induction s as [|c s IH]; simpl; [done|].
  destruct (rstrip s) as [|c' r].
  - destruct (is_space c); simpl; lia.
  - simpl in *. lia.
Qed.

Lemma length_strip s : String.length (strip s) <= String.length s.
Proof.
  unfold strip. etrans; [apply length_rstrip | apply length_lstrip].
Qed.

Lemma prefix_length a b : String.prefix a b = true -> String.length a <= String.length b.
Proof.
  revert b; induction a as [|c a IH]; intros [|d b]; simpl; try done; try lia.
  destruct (ascii_dec c d); [|done]. intros H. apply IH in H. lia.
Qed.

(** Length of a joined list: the pieces and one separator between
    neighbours. *)
Lemma length_join_cons sep x l :
  String.length (join sep (x :: l)) =
  String.length x + match l with
                    | [] => 0
                    | _ :: _ => String.length sep + String.length (join sep l)
                    end.
Proof.
  destruct l as [|y l]; simpl; [lia|].
  by rewrite !length_app.
Qed.

Lemma length_join_sublist sep (g l : list string) :
  sublist g l -> String.length (join sep g) <= String.length (join sep l).
Proof.
  induction 1 as [|x g l Hs IH|x g l Hs IH].
  - done.
  - rewrite !length_join_cons.
    destruct g as [|y g]; [lia|].
    destruct l as [|z l]; [by apply sublist_nil_r in Hs|]. lia.
  - rewrite length_join_cons. destruct l as [|z l]; [|lia].
    apply sublist_nil_r in Hs. subst. simpl. lia.
Qed.

Lemma length_join_elem sep (p : string) (l : list string) :
  p ∈ l -> 2 <= length l ->
  String.length p + String.length sep <= String.length (join sep l).
Proof.
  intros Hp Hl.
  induction l as [|x l IH]; [inversion Hp|].
  rewrite length_join_cons.
  destruct l as [|y l]; [simpl in Hl; lia|].
  apply elem_of_cons in Hp as [->|Hp]; [lia|].
  destruct l as [|z l].
  - apply list_elem_of_singleton in Hp as ->. simpl. lia.
  - specialize (IH Hp). simpl length in IH. lia.
Qed.

Lemma split_go_nonempty sep skip s : split_go sep skip s <> [].
Proof.
  revert skip; induction s as [|c s IH]; intros skip; cbn [split_go]; [done|].
  destruct skip as [|k]; [|apply IH].
  destruct (String.prefix sep (String c s)); [done|].
  by destruct (split_go sep 0 s).
Qed.

(** Joining the pieces of [split] gives back as many characters as the
    text has. *)
Lemma length_join_split_go sep skip s :
  sep <> "" -> skip <= String.length s ->
  String.length (join sep (split_go sep skip s)) + skip = String.length s.
Proof.
  intros Hsep. revert skip; induction s as [|c s IH]; intros skip Hskip.
  - simpl in *. lia.
  - cbn [split_go]. destruct skip as [|k].
    + destruct (String.prefix sep (String c s)) eqn:Hp.
      * apply prefix_length in Hp. simpl in Hp.
        assert (1 <= String.length sep) by (destruct sep; [done | simpl; lia]).
        rewrite length_join_cons.
        pose proof (split_go_nonempty sep (String.length sep - 1) s) as Hne.
        destruct (split_go sep (String.length sep - 1) s) as [|p ps] eqn:E; [done|].
        rewrite <- E. specialize (IH (String.length sep - 1)).
        simpl. lia.
      * specialize (IH 0).
        pose proof (split_go_nonempty sep 0 s) as Hne.
        destruct (split_go sep 0 s) as [|p ps] eqn:E; [done|].
        rewrite length_join_cons in *. simpl. simpl in IH.
        destruct ps; lia.
    + specialize (IH k). simpl in *. lia.
Qed.

Lemma length_join_split sep s :
  sep <> "" -> String.length (join sep (split sep s)) = String.length s.
Proof.
  intros Hsep. pose proof (length_join_split_go sep 0 s Hsep). unfold split. lia.
Qed.

Lemma split_contains_two sep s :
  sep <> "" -> contains sep s = true -> 2 <= length (split sep s).
Proof.
  intros Hsep. unfold split. induction s as [|c s IH]; intros Hc.
  - simpl in Hc. destruct sep; [done|]. simpl in Hc. done.
  - cbn [split_go]. destruct (String.prefix sep (String c s)) eqn:Hp.
    + pose proof (split_go_nonempty sep (String.length sep - 1) s).
      destruct (split_go sep (String.length sep - 1) s); [done | simpl; lia].
    + cbn [contains] in Hc. rewrite Hp in Hc. simpl in Hc. specialize (IH Hc).
      destruct (split_go sep 0 s); simpl in *; lia.
Qed.

(** A separator that occurs in the text cuts it into strictly shorter pieces. *)
Lemma split_piece_shorter sep s p :
  sep <> "" -> contains sep s = true -> p ∈ split sep s ->
  String.length p < String.length s.
Proof.
  intros Hsep Hc Hp.
  pose proof (split_contains_two sep s Hsep Hc) as H2.
  pose proof (length_join_elem sep p _ Hp H2) as Hlen.
  rewrite length_join_split in Hlen by done.
  assert (1 <= String.length sep) by (destruct sep; [done | simpl; lia]).
  lia.
Qed.

Lemma length_join_elem_le sep (p : string) (l : list string) :
  p ∈ l -> String.length p <= String.length (join sep l).
Proof.
  induction l as [|x l IH]; intros Hp; [inversion Hp|].
  rewrite length_join_cons.
  apply elem_of_cons in Hp as [->|Hp]; [lia|].
  specialize (IH Hp). destruct l; [inversion Hp | lia].
Qed.

Lemma chars_length_one s p : p ∈ chars s -> String.length p = 1.
Proof.
  induction s as [|c s IH]; simpl; intros Hp; [inversion Hp|].
  apply elem_of_cons in Hp as [->|Hp]; [done | by apply IH].
Qed.

Lemma length_join_chars s : String.length (join "" (chars s)) = String.length s.
Proof.
  induction s as [|c s IH]; [done|].
  cbn [chars]. rewrite length_join_cons.
  destruct (chars s) eqn:E; simpl in *; lia.
Qed.

End PyStrFacts.

(** ** Facts about the splitter *)

Module TextSplitterFacts.
Import PyStr PyStrFacts TextSplitter.

Lemma len_nonneg s : 0 <= len s.
Proof. unfold len. lia. Qed.

Lemma sum_len_nonneg l : 0 <= sum_len l.
Proof.
  induction l as [|x l IH]; simpl; [lia|]. pose proof (len_nonneg x). lia.
Qed.

Lemma sum_len_app l k : sum_len (l ++ k) = sum_len l + sum_len k.
Proof. induction l as [|x l IH]; simpl; lia. Qed.

Lemma suffix_sublist (l k : list string) : l `suffix_of` k -> sublist l k.
Proof. intros [k' ->]. by apply sublist_inserts_l. Qed.

Section Merge.
Variable self : t.
Variable separator : string.

Local Abbreviation merge_inv := (TextSplitter.merge_inv self separator).

(** The popping loop keeps [total] in step with the pending pieces and
    stops either on an empty list or under both thresholds. *)
Lemma pop_front_spec _len cur :
  exists cur',
    pop_front self _len cur (sum_len cur) = (cur', sum_len cur') /\
    cur' `suffix_of` cur /\
    (cur' = [] \/
     (sum_len cur' <= chunk_overlap self /\
      (sum_len cur' + _len <= chunk_size self \/ sum_len cur' <= 0))).
Proof.
  induction cur as [|d0 rest IH]; cbn [pop_front].
  - exists []. split; [by destruct (_ || _) | split; [done | by left]].
  - destruct ((sum_len (d0 :: rest) >? chunk_overlap self)
              || ((sum_len (d0 :: rest) + _len >? chunk_size self)
                  && (sum_len (d0 :: rest) >? 0))) eqn:E.
    + destruct IH as (cur' & Hpop & Hsuf & Hstop).
      exists cur'. split; [|split; [by apply suffix_cons_r | done]].
      replace (sum_len (d0 :: rest) - len d0) with (sum_len rest)
        by (simpl; lia).
      done.
    + exists (d0 :: rest). split; [done | split; [done | right]].
      apply orb_false_elim in E as [E1 E2].
      apply andb_false_elim in E2. split; [lia|].
      destruct E2; lia.
Qed.

Lemma chunk_of_grow done d doc :
  chunk_of self separator done doc -> chunk_of self separator (done ++ [d]) doc.
Proof.
  intros (g & Hne & Hsub & Hdoc & Hsum).
  exists g. split; [done|]. split; [by apply sublist_inserts_r | done].
Qed.

Lemma merge_step_inv done st d :
  merge_inv done st -> len d < chunk_size self ->
  merge_inv (done ++ [d]) (merge_step self separator st d).
Proof.
  destruct st as [[docs cur] total]. intros (Htot & Hsuf & Hsum & Hdocs) Hd.
  subst total. unfold merge_step.
  assert (Hdocs' : Forall (chunk_of self separator (done ++ [d])) docs).
  { eapply Forall_impl; [exact Hdocs|]. intros doc. apply chunk_of_grow. }
  pose proof (sum_len_nonneg cur) as Hnn.
  destruct (sum_len cur + len d >=? chunk_size self) eqn:E.
  - destruct cur as [|c0 cur0].
    + split; [simpl; lia|]. split; [apply suffix_app_r; done|].
      split; [right; simpl; lia | done].
    + set (cur := c0 :: cur0) in *.
      destruct (pop_front_spec (len d) cur) as (cur' & Hpop & Hsuf' & Hstop).
      rewrite Hpop.
      assert (Hnew : Forall (chunk_of self separator (done ++ [d]))
                       (match join_docs cur separator with
                        | Some doc => docs ++ [doc]
                        | None => docs
                        end)).
      { unfold join_docs. case_decide; [done|].
        apply Forall_app. split; [done|]. apply Forall_singleton.
        exists cur. split; [done|]. split.
        - apply sublist_inserts_r. by apply suffix_sublist.
        - split; [done|]. destruct Hsum as [Hsum|Hsum]; [done | lia]. }
      split; [rewrite sum_len_app; simpl; lia|].
      split; [apply suffix_app; by etrans|].
      split; [|done].
      right. rewrite sum_len_app. simpl.
      pose proof (sum_len_nonneg cur').
      destruct Hstop as [->|[_ [H1|H1]]]; simpl; lia.
  - split; [rewrite sum_len_app; simpl; lia|].
    split; [by apply suffix_app|].
    split; [|done].
    right. rewrite sum_len_app. simpl. lia.
Qed.

Lemma merge_fold_inv splits done st :
  merge_inv done st ->
  Forall (fun d => len d < chunk_size self) splits ->
  merge_inv (done ++ splits) (fold_left (merge_step self separator) splits st).
Proof.
  revert done st. induction splits as [|d splits IH]; intros done st Hinv Hall.
  - by rewrite app_nil_r.
  - apply Forall_cons in Hall as [Hd Hall]. simpl.
    replace (done ++ d :: splits) with ((done ++ [d]) ++ splits)
      by (by rewrite <- app_assoc).
    apply IH; [|done]. by apply merge_step_inv.
Qed.

(** Every chunk of [merge_splits] is the stripped join of a group of
    the given pieces whose lengths, separators not counted, sum to at
    most [chunk_size]. *)
Lemma merge_splits_chunks splits :
  Forall (fun d => len d < chunk_size self) splits ->
  Forall (chunk_of self separator splits) (merge_splits self splits separator).
Proof.
  intros Hall. unfold merge_splits.
  pose proof (merge_fold_inv splits [] ([], [], 0)) as Hinv.
  destruct (fold_left _ splits _) as [[docs cur] total].
  destruct Hinv as (Htot & Hsuf & Hsum & Hdocs).
  { split; [done|]. split; [done|]. split; [by left | done]. }
  { done. }
  simpl in Hsuf, Hdocs. unfold merge_finish, join_docs. case_decide; [done|].
  apply Forall_app. split; [done|]. apply Forall_singleton.
  exists cur. split; [by intros ->|]. split; [by apply suffix_sublist|].
  split; [done|]. destruct Hsum as [->|Hsum]; [done | done].
Qed.
End Merge.


Section Split.
Variable self : t.

Lemma flush_chunks (P : string -> Prop) separator whole good final :
  sublist good whole ->
  Forall (fun d => len d < chunk_size self) good ->
  (forall doc, chunk_of self separator whole doc -> P doc) ->
  Forall P final ->
  Forall P (flush self separator good final).
Proof.
  intros Hsub Hgood HP Hfinal. unfold flush.
  destruct good as [|g0 good]; [done|].
  apply Forall_app. split; [done|].
  eapply Forall_impl; [apply merge_splits_chunks; exact Hgood|].
  intros doc (g & Hne & Hg & Hdoc & Hsum). apply HP.
  exists g. split; [done|]. split; [by etrans | done].
Qed.

Lemma split_loop_chunks (P : string -> Prop) rec separator :
  forall splits done good final r,
    sublist good done ->
    Forall (fun d => len d < chunk_size self) good ->
    Forall P final ->
    (forall s r', s ∈ splits -> rec s = inr r' -> Forall P r') ->
    (forall doc, chunk_of self separator (done ++ splits) doc -> P doc) ->
    split_loop self rec separator splits good final = inr r ->
    Forall P r.
Proof.
  induction splits as [|s rest IH];
    intros done good final r Hsub Hgood Hfinal Hrec HP Hrun; cbn [split_loop] in Hrun.
  - inversion Hrun; subst. rewrite app_nil_r in HP.
    by eapply flush_chunks.
  - replace (done ++ s :: rest) with ((done ++ [s]) ++ rest) in HP
      by (by rewrite <- app_assoc).
    destruct (len s <? chunk_size self) eqn:E.
    + eapply (IH (done ++ [s])); [| | exact Hfinal | | exact HP | exact Hrun].
      * by apply sublist_app.
      * apply Forall_app. split; [done|]. apply Forall_singleton. lia.
      * intros s' r' Hs'. apply Hrec. by right.
    + destruct (rec s) as [e|other_info] eqn:Er; [done|].
      eapply (IH (done ++ [s]) []); [| | | | exact HP | exact Hrun].
      * apply sublist_nil_l.
      * done.
      * apply Forall_app. split.
        -- eapply (flush_chunks P separator ((done ++ [s]) ++ rest)); try done.
           apply sublist_inserts_r. by apply sublist_inserts_r.
        -- eapply Hrec; [by left | done].
      * intros s' r' Hs'. apply Hrec. by right.
Qed.

Lemma split_loop_total rec separator :
  forall splits good final,
    (forall s, s ∈ splits -> chunk_size self <= len s -> exists r, rec s = inr r) ->
    exists r, split_loop self rec separator splits good final = inr r.
Proof.
  induction splits as [|s rest IH]; intros good final Hrec; cbn [split_loop].
  - by eexists.
  - destruct (len s <? chunk_size self) eqn:E.
    + apply IH. intros s' Hs'. apply Hrec. by right.
    + destruct (Hrec s) as [r ->]; [by left | lia |].
      apply IH. intros s' Hs'. apply Hrec. by right.
Qed.

Lemma chunk_ok_longer text text' c :
  (String.length text <= String.length text')%nat ->
  chunk_ok self text c -> chunk_ok self text' c.
Proof.
  intros Hle (sep & g & Hc & Hsum & Hlen).
  exists sep, g. split; [done|]. split; [done | lia].
Qed.

(** The pieces of one level join to a string as long as the text. *)
Lemma length_join_pieces text :
  let separator := choose_separator self text in
  let splits := if decide (separator = "") then chars text
                else split separator text in
  String.length (join separator splits) = String.length text.
Proof.
  intros separator splits. unfold splits. case_decide as Hs.
  - rewrite Hs. apply length_join_chars.
  - by apply length_join_split.
Qed.

(** Every chunk of [split_text] is made of pieces whose lengths sum to
    at most [chunk_size], and is no longer than the text. *)
Lemma split_text_chunks fuel text r :
  split_text fuel self text = inr r -> Forall (chunk_ok self text) r.
Proof.
  revert text r. induction fuel as [|fuel IH]; intros text r Hrun; [done|].
  cbn [split_text] in Hrun. pose proof (length_join_pieces text) as Hlen.
  cbv zeta in Hlen.
  set (separator := choose_separator self text) in *.
  set (splits := if decide (separator = "") then chars text
                 else split separator text) in *.
  eapply (split_loop_chunks _ _ separator splits [] [] []);
    [done | done | done | | | exact Hrun].
  - intros s r' Hs Hr'. apply IH in Hr'.
    eapply Forall_impl; [exact Hr'|]. intros c. apply chunk_ok_longer.
    rewrite <- Hlen. by apply length_join_elem_le.
  - intros doc (g & Hne & Hsub & Hdoc & Hsum). exists separator, g.
    split; [done|]. split; [done|]. rewrite <- Hlen.
    by apply length_join_sublist.
Qed.

Lemma first_separator_spec seps text :
  "" ∈ seps ->
  exists s, first_separator seps text = Some s /\
            (s = "" \/ (s <> "" /\ contains s text = true)).
Proof.
  induction seps as [|s seps IH]; intros Hin; [inversion Hin|].
  cbn [first_separator]. case_decide as Hs; [by eauto|].
  destruct (contains s text) eqn:Hc; [by eauto|].
  apply IH. apply elem_of_cons in Hin as [Hin|Hin]; [by subst | done].
Qed.

(** With the empty separator available and a chunk size of at least
    two, one unit of fuel per character is enough. *)
Lemma split_text_total fuel text :
  2 <= chunk_size self -> "" ∈ separators self ->
  (String.length text < fuel)%nat ->
  exists r, split_text fuel self text = inr r.
Proof.
  intros Hcs Hsep. revert text.
  induction fuel as [|fuel IH]; intros text Hfuel; [lia|].
  cbn [split_text]. apply split_loop_total. intros s Hs Hbig.
  unfold choose_separator in Hs.
  destruct (first_separator_spec (separators self) text Hsep)
    as (sep & Hfs & [->|[Hne Hc]]); rewrite Hfs in Hs.
  - rewrite decide_True in Hs by done.
    apply chars_length_one in Hs. unfold len in Hbig. lia.
  - rewrite decide_False in Hs by done.
    apply IH. apply (split_piece_shorter sep text s) in Hs; [lia | done | done].
Qed.
End Split.

End TextSplitterFacts.

(** C8.  Constructing the splitter with [chunk_overlap >= chunk_size] fails
    with the configuration error ([ValueError]) that [TextSplitter.__init__]
    raises to its caller; with [chunk_overlap < chunk_size] construction
    succeeds and stores both parameters. *)
Theorem init_rejects_overlap_not_below_size (chunk_size chunk_overlap : Z)
    (seps : option (list string)) :
  (chunk_overlap >= chunk_size ->
   exists msg, TextSplitter.init chunk_size chunk_overlap seps = inl (ValueError msg)) /\
  (chunk_overlap < chunk_size ->
   exists self, TextSplitter.init chunk_size chunk_overlap seps = inr self /\
                TextSplitter.chunk_size self = chunk_size /\
                TextSplitter.chunk_overlap self = chunk_overlap).
Proof.
  unfold TextSplitter.init. split; intros H.
  - destruct (chunk_overlap >=? chunk_size) eqn:E; [by eexists | lia].
  - destruct (chunk_overlap >=? chunk_size) eqn:E; [lia|].
    eexists. split; [reflexivity|]. done.
Qed.

Lemma init_rejects_overlap_not_below_size_witness :
  (exists msg, TextSplitter.init 10 10 None = inl (ValueError msg)) /\
  (exists self, TextSplitter.init 10 2 None = inr self /\
                TextSplitter.chunk_size self = 10 /\
                TextSplitter.chunk_overlap self = 2).
Proof.
  split.
  - apply (init_rejects_overlap_not_below_size 10 10 None). lia.
  - apply (init_rejects_overlap_not_below_size 10 2 None). lia.
Defined.

(** C4, at a failing input.  With [chunk_size = 10], [chunk_overlap = 0] and
    the default separators, the text [aaaa bbbb c] is cut at the spaces into
    three pieces of lengths 4, 4 and 1; [merge_splits] adds up 9 < 10 and
    joins them back with two spaces, so [split_text] returns one chunk of
    11 characters although every piece could be split further. *)
Theorem split_text_chunk_longer_than_chunk_size :
  exists self,
    TextSplitter.init 10 0 None = inr self /\
    PyStr.split " " "aaaa bbbb c" = ["aaaa"; "bbbb"; "c"] /\
    TextSplitter.split_text 12 self "aaaa bbbb c" = inr ["aaaa bbbb c"] /\
    PyStr.len "aaaa bbbb c" = 11 /\
    TextSplitter.chunk_size self < PyStr.len "aaaa bbbb c".
Proof.
  eexists. split; [reflexivity|]. repeat split; vm_compute; reflexivity.
Qed.

(** ** Facts about [trim_prompt] *)

Module ProvidersFacts.
Import PyStr PyStrFacts TextSplitter TextSplitterFacts Providers.

Lemma default_separators_empty : "" ∈ default_separators.
Proof. unfold default_separators. set_solver. Qed.

Lemma length_slice_to n s :
  0 <= n -> String.length (slice_to n s) = Nat.min (Z.to_nat n) (String.length s).
Proof.
  intros Hn. unfold slice_to. destruct (n <? 0) eqn:E; [lia|]. apply length_take.
Qed.

Lemma slice_to_all n s : len s <= n -> slice_to n s = s.
Proof.
  intros Hn. unfold slice_to, len in *. destruct (n <? 0) eqn:E; [lia|].
  apply take_all. lia.
Qed.

Lemma first_chunk_length self fuel text chunks :
  split_text fuel self text = inr chunks ->
  (String.length (match chunks with c :: _ => c | [] => "" end)
   <= String.length text)%nat.
Proof.
  intros Hrun. apply split_text_chunks in Hrun.
  destruct chunks as [|c chunks]; [simpl; lia|].
  apply Forall_cons in Hrun as [(sep & g & -> & _ & Hlen) _].
  etrans; [apply length_strip | done].
Qed.

(** The two results that are slices are left alone by a second pass. *)
Lemma fixed_point_fallback context_size prompt :
  0 <= context_size ->
  Providers.fixed_point None context_size (slice_to (context_size * 3) prompt).
Proof.
  intros Hcs [|fuel] Hfuel; [lia|].
  cbn [trim_prompt_fuel]. case_decide as Hp; [by rewrite Hp|].
  f_equal. apply slice_to_all.
  unfold len. rewrite length_slice_to by lia. lia.
Qed.

Lemma fixed_point_floor count context_size prompt :
  Providers.fixed_point (Some count) context_size (slice_to MIN_CHUNK_SIZE prompt).
Proof.
  intros [|fuel] Hfuel; [lia|].
  cbn [trim_prompt_fuel]. case_decide as Hp; [by rewrite Hp|].
  cbv zeta.
  destruct (_ <=? context_size) eqn:E1; [done|].
  assert (Hlen : len (slice_to MIN_CHUNK_SIZE prompt) <= MIN_CHUNK_SIZE).
  { unfold len, MIN_CHUNK_SIZE. rewrite length_slice_to by lia. lia. }
  destruct (_ <? MIN_CHUNK_SIZE) eqn:E2; [|lia].
  f_equal. by apply slice_to_all.
Qed.

Section Trim.
Variable encoder : option (string -> nat).

Local Abbreviation fixed_point := (Providers.fixed_point encoder).

(** One unit of fuel per character of the prompt is enough: every
    recursive call is on a strictly shorter string. *)
Lemma trim_prompt_fuel_total fuel prompt context_size :
  (String.length prompt < fuel)%nat ->
  exists r, trim_prompt_fuel encoder fuel prompt context_size = Some r.
Proof.
  revert prompt. induction fuel as [|fuel IH]; intros prompt Hfuel; [lia|].
  cbn [trim_prompt_fuel]. case_decide as Hp; [by eauto|].
  destruct encoder as [count|]; [|by eauto].
  cbv zeta. destruct (_ <=? context_size) eqn:E1; [by eauto|].
  destruct (_ <? MIN_CHUNK_SIZE) eqn:E2; [by eauto|].
  destruct (init _ 0 None) as [e|splitter]; [by eauto|].
  destruct (split_text _ splitter prompt) as [e|chunks] eqn:Es; [by eauto|].
  apply first_chunk_length in Es.
  unfold MIN_CHUNK_SIZE in E2.
  case_decide as Hl.
  - apply IH. rewrite length_slice_to by lia. unfold len in *. lia.
  - apply IH. unfold len in Hl. lia.
Qed.

Lemma fixed_point_empty context_size : fixed_point context_size "".
Proof. intros [|fuel] Hfuel; [lia | done]. Qed.

(** Whatever [trim_prompt] returns is left alone by a second pass.  When
    the encoding is not available the result is a slice at three
    characters per token, which needs a budget that is not negative. *)
Lemma trim_prompt_fuel_fixed fuel prompt context_size r :
  (encoder = None -> 0 <= context_size) ->
  trim_prompt_fuel encoder fuel prompt context_size = Some r ->
  fixed_point context_size r.
Proof.
  intros Hcs. revert prompt.
  induction fuel as [|fuel IH]; intros prompt Hrun; [done|].
  cbn [trim_prompt_fuel] in Hrun. case_decide as Hp.
  { inversion Hrun. apply fixed_point_empty. }
  destruct encoder as [count|] eqn:Henc.
  2:{ inversion Hrun. apply fixed_point_fallback. by apply Hcs. }
  cbv zeta in Hrun.
  destruct (_ <=? context_size) eqn:E1.
  { inversion Hrun; subst r. intros [|fuel'] Hfuel'; [lia|].
    cbn [trim_prompt_fuel]. rewrite decide_False by done.
    cbv zeta. by rewrite E1. }
  destruct (_ <? MIN_CHUNK_SIZE) eqn:E2.
  { inversion Hrun. apply fixed_point_floor. }
  unfold MIN_CHUNK_SIZE in E2.
  destruct (init _ 0 None) as [e|splitter] eqn:Ei.
  { unfold init in Ei. destruct (0 >=? _) eqn:E3; [lia | done]. }
  destruct (split_text _ splitter prompt) as [e|chunks] eqn:Es.
  { destruct (split_text_total splitter (S (String.length prompt)) prompt)
      as [r' Hr']; [| | lia | congruence].
    - unfold init in Ei. destruct (0 >=? _); [done|].
      inversion Ei; subst splitter. simpl. lia.
    - unfold init in Ei. destruct (0 >=? _); [done|].
      inversion Ei; subst splitter. apply default_separators_empty. }
  case_decide; by eapply IH.
Qed.
End Trim.

End ProvidersFacts.



(** ** Facts about the orchestrator *)

Module DeepResearchFacts.
Import PyStr DeepResearch.

(** The breadth after [k] halvings, as [process_query] computes it. *)
Lemma halve_breadth (b : Z) (k : nat) :
  Z.max 1 (Z.max 1 (b / 2 ^ Z.of_nat k) / 2) = Z.max 1 (b / 2 ^ Z.of_nat (S k)).
Proof.
  replace (2 ^ Z.of_nat (S k)) with (2 ^ Z.of_nat k * 2)
    by (rewrite Nat2Z.inj_succ, Z.pow_succ_r by lia; lia).
  rewrite <- Z.div_div by lia.
  destruct (Z.le_gt_cases 1 (b / 2 ^ Z.of_nat k)) as [H|H].
  - by rewrite (Z.max_r 1 (b / 2 ^ Z.of_nat k)) by lia.
  - rewrite (Z.max_l 1 (b / 2 ^ Z.of_nat k)) by lia.
    change (1 / 2) with 0.
    assert (b / 2 ^ Z.of_nat k / 2 <= 0); [|lia].
    apply Z.div_le_upper_bound; lia.
Qed.

Lemma fold_union_list {A} (f : A -> gset string) (rs : list A) (a : gset string) :
  fold_left (fun acc r => acc ∪ f r) rs a = a ∪ ⋃ (f <$> rs).
Proof.
  revert a. induction rs as [|r rs IH]; intros a; csimpl.
  - by rewrite union_empty_r_L.
  - rewrite IH. by rewrite (assoc_L (∪)).
Qed.

(** The merged lists, as sets: the seed and every branch result. *)
Lemma merge_learnings L U rs :
  list_to_set (learnings (merge L U rs)) =@{gset string}
  list_to_set L ∪ ⋃ ((fun r => list_to_set (learnings r)) <$> rs).
Proof. unfold merge. simpl. by rewrite list_to_set_elements_L, fold_union_list. Qed.

Lemma merge_visited_urls L U rs :
  list_to_set (visited_urls (merge L U rs)) =@{gset string}
  list_to_set U ∪ ⋃ ((fun r => list_to_set (visited_urls r)) <$> rs).
Proof. unfold merge. simpl. by rewrite list_to_set_elements_L, fold_union_list. Qed.

Lemma merge_NoDup L U rs :
  NoDup (learnings (merge L U rs)) /\ NoDup (visited_urls (merge L U rs)).
Proof. unfold merge. simpl. split; apply NoDup_elements. Qed.

Section Services.
Variable encoder : option (string -> nat).
Variable CONTEXT_SIZE : Z.
Variable system_prompt : string.
Variable complete_queries :
  string -> string -> Z -> result (option (list SerpQuery)).
Variable complete_learnings :
  string -> string -> Z -> Z ->
  result (option (list string) * option (list string)).
Variable search : string -> Z -> result SearchResponse.

Local Abbreviation plan :=
  (generate_serp_queries system_prompt complete_queries).
Local Abbreviation branch :=
  (process_query encoder CONTEXT_SIZE system_prompt complete_learnings search).
Local Abbreviation branch_body :=
  (process_query_body encoder CONTEXT_SIZE system_prompt complete_learnings search).
Local Abbreviation research :=
  (deep_research_fuel encoder CONTEXT_SIZE system_prompt
     complete_queries complete_learnings search).

(** A branch whose [try] block raises returns the empty result and makes
    no recursive call. *)
Lemma branch_raises rec b d L U sq e :
  branch_body rec b d L U sq = Some (inl e) ->
  branch rec b d L U sq = Some (mkResearchResult [] [], []).
Proof. intros H. unfold process_query. by rewrite H. Qed.

(** The [try] block raises exactly when the search does: a failure of the
    completion service is caught inside [process_serp_result], and the
    recursive call does not raise. *)
Lemma branch_body_raises_iff rec b d L U sq e :
  branch_body rec b d L U sq = Some (inl e) <-> search (query sq) 5 = inl e.
Proof.
  unfold process_query_body. split.
  - destruct (search (query sq) 5) as [e'|resp]; [congruence|].
    destruct (scrape resp) as [new_urls scraped].
    destruct (d - 1 >? 0); [|done].
    destruct (rec _ _ _ _ _) as [[r t]|]; done.
  - by intros ->.
Qed.

(** A branch returns as soon as the recursive call it may make does. *)
Lemma branch_total (rec : research_fn) b d L U sq :
  (d - 1 > 0 -> forall q L' U', is_Some (rec q (Z.max 1 (b / 2)) (d - 1) L' U')) ->
  is_Some (branch rec b d L U sq).
Proof.
  intros Hrec. unfold process_query, process_query_body.
  destruct (search (query sq) 5) as [e|resp]; [done|].
  destruct (scrape resp) as [new_urls scraped].
  destruct (d - 1 >? 0) eqn:E; [|done].
  edestruct Hrec as [[r t] Hr]; [lia|]. rewrite Hr. done.
Qed.

(** Termination: an invocation at [depth] returns with [fuel_for depth]
    units of fuel, and with any larger amount. *)
Lemma research_total fuel q b d L U :
  (fuel_for d <= fuel)%nat -> is_Some (research fuel q b d L U).
Proof.
  revert q b d L U. induction fuel as [|fuel IH]; intros q b d L U Hfuel.
  - unfold fuel_for in Hfuel. lia.
  - cbn [deep_research_fuel].
    destruct (plan q b (default [] L)) as [|sq sqs] eqn:Ep; [done|].
    destruct (mapM _ (sq :: sqs)) as [results|] eqn:Em; [done|].
    exfalso. apply eq_None_not_Some in Em. apply Em. apply mapM_is_Some.
    apply Forall_forall. intros sq' _. apply branch_total.
    intros Hd q' L' U'. apply IH. unfold fuel_for in *. lia.
Qed.
(** What an invocation that returns has done: either the plan was empty
    and the seed is returned as it is, or every branch returned and the
    results were merged. *)
Lemma research_inv fuel q b d L U r t :
  research (S fuel) q b d L U = Some (r, t) ->
  let L0 := default [] L in
  let U0 := default [] U in
  (plan q b L0 = [] /\ r = mkResearchResult L0 U0 /\ t = Call b d []) \/
  (plan q b L0 <> [] /\
   exists results,
     Forall2 (fun sq y => branch (research fuel) b d L0 U0 sq = Some y)
             (plan q b L0) results /\
     r = merge L0 U0 (map fst results) /\
     t = Call b d (concat (map snd results))).
Proof.
  cbn [deep_research_fuel]. intros Hrun.
  destruct (plan q b (default [] L)) as [|sq sqs] eqn:Ep.
  - left. by inversion Hrun.
  - right. split; [done|].
    destruct (mapM _ (sq :: sqs)) as [results|] eqn:Em; [|done].
    apply mapM_Some in Em. exists results. by inversion Hrun.
Qed.

(** What a branch that returns has done. *)
Lemma branch_inv (rec : research_fn) b d L U sq r cs :
  branch rec b d L U sq = Some (r, cs) ->
  (exists e, search (query sq) 5 = inl e /\ r = mkResearchResult [] [] /\ cs = []) \/
  (exists resp processed,
     search (query sq) 5 = inr resp /\
     let L' := L ++ p_learnings processed in
     let U' := U ++ (scrape resp).1 in
     (d - 1 > 0 /\
      exists q' t, rec q' (Z.max 1 (b / 2)) (d - 1) (Some L') (Some U') = Some (r, t) /\
                   cs = [t]) \/
     (d - 1 <= 0 /\ r = mkResearchResult L' U' /\ cs = [])).
Proof.
  unfold process_query, process_query_body. intros Hrun.
  destruct (search (query sq) 5) as [e|resp]; [left; exists e; by inversion Hrun|].
  right. exists resp.
  exists (process_serp_result encoder CONTEXT_SIZE system_prompt complete_learnings
            (query sq) (Some (scrape resp).2) 3 (Z.max 1 (b / 2))).
  split; [done|]. destruct (scrape resp) as [new_urls scraped]. cbn [fst snd].
  destruct (d - 1 >? 0) eqn:E.
  - left. split; [lia|].
    destruct (rec _ _ _ _ _) as [[r' t']|] eqn:Er; [|done].
    cbn in Hrun. inversion Hrun; subst. eexists _, _. split; [exact Er | done].
  - right. split; [lia|]. by inversion Hrun.
Qed.

(** The invocations made by the branches of one invocation. *)
Lemma children_inv fuel b d L U sqs results c :
  Forall2 (fun sq y => branch (research fuel) b d L U sq = Some y) sqs results ->
  c ∈ concat (map snd results) ->
  d - 1 > 0 /\
  exists q' L' U' r',
    research fuel q' (Z.max 1 (b / 2)) (d - 1) L' U' = Some (r', c).
Proof.
  induction 1 as [|sq [r cs] sqs results Hb _ IH]; csimpl; intros Hc.
  - inversion Hc.
  - apply elem_of_app in Hc as [Hc|Hc]; [|by apply IH].
    apply branch_inv in Hb as [(e & _ & _ & ->)|(resp & processed & _ & H)].
    + inversion Hc.
    + cbv zeta in H. destruct H as [(Hd & q' & t & Hr & ->)|(_ & _ & ->)].
      * apply list_elem_of_singleton in Hc as ->. split; [done|]. by eauto.
      * inversion Hc.
Qed.

(** The arguments of every invocation [k] calls below the root: the
    breadth halved [k] times, never below one, and the depth less [k]. *)
Lemma research_calls fuel q b d L U r t (k : nat) :
  research fuel q b d L U = Some (r, t) ->
  Forall (fun bd => bd = (Nat.iter k (fun x => Z.max 1 (x / 2)) b, d - Z.of_nat k))
         (calls_at k t).
Proof.
  revert q b d L U r t k.
  induction fuel as [|fuel IH]; intros q b d L U r t k Hrun; [done|].
  assert (exists children,
             t = Call b d children /\
             forall c, c ∈ children ->
                       exists q' L' U' r',
                         research fuel q' (Z.max 1 (b / 2)) (d - 1) L' U' = Some (r', c))
    as (children & -> & Hch).
  { apply research_inv in Hrun as [(_ & _ & ->)|(_ & results & HF & _ & ->)].
    - exists []. split; [done|]. intros c Hc. inversion Hc.
    - eexists. split; [done|]. intros c Hc.
      by apply (children_inv _ _ _ _ _ _ _ _ HF) in Hc as [_ Hc]. }
  destruct k as [|k]; cbn [calls_at].
  - apply Forall_singleton. simpl. f_equal. lia.
  - apply Forall_forall. intros bd Hbd.
    apply list_elem_of_In, in_flat_map in Hbd as (c & Hc & Hbd).
    apply list_elem_of_In in Hc. apply Hch in Hc as (q' & L' & U' & r' & Hr').
    apply (IH _ _ _ _ _ _ _ k) in Hr'.
    rewrite Forall_forall in Hr'. apply list_elem_of_In in Hbd.
    rewrite (Hr' _ Hbd). rewrite Nat.iter_succ_r. f_equal. lia.
Qed.

Lemma iter_halve_closed (b : Z) (k : nat) :
  1 <= b -> Nat.iter k (fun x => Z.max 1 (x / 2)) b = Z.max 1 (b / 2 ^ Z.of_nat k).
Proof.
  intros Hb. induction k as [|k IH].
  - simpl. rewrite Z.div_1_r. lia.
  - rewrite Nat.iter_succ, IH. apply halve_breadth.
Qed.

(** The call tree is never deeper than [fuel_for depth]. *)
Lemma research_levels_le fuel q b d L U r t :
  research fuel q b d L U = Some (r, t) -> (levels t <= fuel_for d)%nat.
Proof.
  revert q b d L U r t.
  induction fuel as [|fuel IH]; intros q b d L U r t Hrun; [done|].
  apply research_inv in Hrun as [(_ & _ & ->)|(_ & results & HF & _ & ->)].
  - unfold fuel_for. simpl. lia.
  - cbn [levels].
    assert (list_max (map levels (concat (map snd results))) <= fuel_for d - 1)%nat
      as Hmax; [|unfold fuel_for in *; lia].
    apply list_max_le, Forall_forall. intros n Hn.
    apply list_elem_of_In, in_map_iff in Hn as (c & <- & Hc).
    apply list_elem_of_In in Hc.
    apply (children_inv _ _ _ _ _ _ _ _ HF) in Hc as (Hd & q' & L' & U' & r' & Hr').
    apply IH in Hr'. unfold fuel_for in *. lia.
Qed.

Lemma list_max_const (l : list nat) (n : nat) :
  l <> [] -> Forall (eq n) l -> list_max l = n.
Proof.
  intros Hne Hall. destruct l as [|x l]; [done|].
  apply Forall_cons in Hall as [<- Hall]. clear Hne.
  induction Hall as [|y l <- _ IH]; simpl in *; lia.
Qed.

(** When every plan is non-empty and no search raises, the call tree is
    exactly [fuel_for depth] levels deep. *)
Lemma research_levels_eq fuel q b d L U r t :
  (forall q n L, 1 <= n -> plan q n L <> []) ->
  (forall q n, exists resp, search q n = inr resp) ->
  1 <= b ->
  research fuel q b d L U = Some (r, t) -> levels t = fuel_for d.
Proof.
  intros Hplan Hsearch. revert q b d L U r t.
  induction fuel as [|fuel IH]; intros q b d L U r t Hb Hrun; [done|].
  apply research_inv in Hrun as [(Hp & _)|(Hne & results & HF & _ & ->)].
  { by apply Hplan in Hp. }
  cbn [levels].
  destruct (Z.le_gt_cases (d - 1) 0) as [Hd|Hd].
  - assert (concat (map snd results) = []) as ->.
    { clear Hne. induction HF as [|sq [r' cs] sqs results Hbr _ IHF]; [done|].
      csimpl. rewrite IHF, app_nil_r.
      apply branch_inv in Hbr as [(e & _ & _ & ->)|(resp & pr & _ & H)]; [done|].
      cbv zeta in H. destruct H as [(Hd' & _)|(_ & _ & ->)]; [lia | done]. }
    unfold fuel_for. simpl. lia.
  - assert (list_max (map levels (concat (map snd results))) = fuel_for (d - 1))
      as ->; [|unfold fuel_for; lia].
    apply list_max_const.
    + destruct HF as [|sq [r' cs] sqs results Hbr _]; [done|].
      apply branch_inv in Hbr as [(e & He & _)|(resp & pr & _ & H)].
      * destruct (Hsearch (query sq) 5) as [resp Hresp]. congruence.
      * cbv zeta in H. destruct H as [(_ & q' & t' & _ & ->)|(Hd' & _)]; [done | lia].
    + clear Hne. induction HF as [|sq [r' cs] sqs results Hbr _ IHF]; [done|].
      csimpl. rewrite map_app. apply Forall_app. split; [|done].
      apply branch_inv in Hbr as [(e & He & _)|(resp & pr & _ & H)].
      * destruct (Hsearch (query sq) 5) as [resp Hresp]. congruence.
      * cbv zeta in H. destruct H as [(_ & q' & t' & Hr' & ->)|(Hd' & _)]; [|lia].
        apply Forall_singleton. symmetry. eapply IH; [|exact Hr']. lia.
Qed.

(** The seed is part of whatever an invocation returns. *)
Lemma research_keeps_seed fuel q b d L U r t :
  research fuel q b d L U = Some (r, t) ->
  list_to_set (default [] L) ⊆@{gset string} list_to_set (learnings r) /\
  list_to_set (default [] U) ⊆@{gset string} list_to_set (visited_urls r).
Proof.
  destruct fuel as [|fuel]; [done|]. intros Hrun.
  apply research_inv in Hrun as [(_ & -> & _)|(_ & results & _ & -> & _)].
  - done.
  - rewrite merge_learnings, merge_visited_urls. split; apply union_subseteq_l.
Qed.

(** A branch whose search returns hands on the seed urls and every url it
    scraped, whether it recurses or not. *)
Lemma branch_keeps_urls fuel b d L U sq r cs resp :
  branch (research fuel) b d L U sq = Some (r, cs) ->
  search (query sq) 5 = inr resp ->
  list_to_set (U ++ (scrape resp).1) ⊆@{gset string} list_to_set (visited_urls r).
Proof.
  intros Hbr Hs.
  apply branch_inv in Hbr as [(e & He & _)|(resp' & pr & Hs' & H)]; [congruence|].
  assert (resp' = resp) as -> by congruence. cbv zeta in H.
  destruct H as [(_ & q' & t' & Hr' & _)|(_ & -> & _)]; [|done].
  by apply research_keeps_seed in Hr' as [_ Hr'].
Qed.

(** Every item with a non-empty [url] is scraped, whatever its content. *)
Lemma scrape_url (items : list Item) (item : Item) (u : string) :
  item ∈ items -> item_url item = Some u -> u <> "" ->
  u ∈ (scrape (Some items)).1.
Proof.
  intros Hin Hu Hne. unfold scrape. cbn [fst].
  apply list_elem_of_In, in_map_iff.
  exists (u, mkItem (Some u) None
               (Some (if truthy (item_content item)
                      then default "" (item_content item)
                      else default "" (item_markdown item)))).
  split; [done|]. apply in_flat_map. exists item.
  split; [by apply list_elem_of_In|].
  unfold scrape_item. rewrite Hu. simpl. rewrite decide_False by done. by left.
Qed.

(** The result of a branch is part of the merged result. *)
Lemma merged_branch fuel q b d L U r t sq :
  research (S fuel) q b d L U = Some (r, t) ->
  sq ∈ plan q b (default [] L) ->
  exists rb cs,
    branch (research fuel) b d (default [] L) (default [] U) sq = Some (rb, cs) /\
    list_to_set (learnings rb) ⊆@{gset string} list_to_set (learnings r) /\
    list_to_set (visited_urls rb) ⊆@{gset string} list_to_set (visited_urls r).
Proof.
  intros Hrun Hsq.
  apply research_inv in Hrun as [(Hp & _)|(_ & results & HF & -> & _)].
  { rewrite Hp in Hsq. inversion Hsq. }
  apply list_elem_of_lookup in Hsq as [i Hi].
  destruct (Forall2_lookup_l _ _ _ _ _ HF Hi) as ([rb cs] & Hy & Hbr).
  exists rb, cs. split; [done|].
  rewrite merge_learnings, merge_visited_urls.
  assert (rb ∈ map fst results) as Hrb.
  { apply list_elem_of_In, in_map_iff. exists (rb, cs).
    split; [done | apply list_elem_of_In; by eapply list_elem_of_lookup_2]. }
  split; intros x Hx; apply elem_of_union; right; apply elem_of_union_list;
    eexists; (split; [|exact Hx]); apply list_elem_of_fmap; by exists rb.
Qed.

End Services.
End DeepResearchFacts.

(* ===================================================================== *)
(** ** The orchestrator: termination, merge and failure isolation *)
(* ===================================================================== *)

Section Orchestrator.
Import DeepResearch DeepResearchFacts.

Variable encoder : option (string -> nat).
Variable CONTEXT_SIZE : Z.
Variable system_prompt : string.
Variable complete_queries :
  string -> string -> Z -> result (option (list SerpQuery)).
Variable complete_learnings :
  string -> string -> Z -> Z ->
  result (option (list string) * option (list string)).
Variable search : string -> Z -> result SearchResponse.

Local Abbreviation plan :=
  (generate_serp_queries system_prompt complete_queries).
Local Abbreviation branch :=
  (process_query encoder CONTEXT_SIZE system_prompt complete_learnings search).
Local Abbreviation branch_body :=
  (process_query_body encoder CONTEXT_SIZE system_prompt complete_learnings search).
Local Abbreviation research_fuel :=
  (deep_research_fuel encoder CONTEXT_SIZE system_prompt
     complete_queries complete_learnings search).
Local Abbreviation research :=
  (deep_research encoder CONTEXT_SIZE system_prompt
     complete_queries complete_learnings search).

Lemma fuel_for_succ d : fuel_for d = S (pred (fuel_for d)).
Proof. unfold fuel_for. lia. Qed.



(** C3, as amended.  On the merge path, that is whenever the plan is not
    empty, the returned learnings and urls hold no duplicates, also when the
    seed lists do; on the early-return path the seed lists are returned as
    they are, so the result is free of duplicates when the seeds are. *)
Theorem result_deduplicated (q : string) (b d : Z) (L U : option (list string)) :
  plan q b (default [] L) <> [] \/ (NoDup (default [] L) /\ NoDup (default [] U)) ->
  exists r t,
    research q b d L U = Some (r, t) /\
    NoDup (learnings r) /\ NoDup (visited_urls r).
Proof.
  intros Hcase. unfold deep_research.
  destruct (research_total encoder CONTEXT_SIZE system_prompt complete_queries
              complete_learnings search (fuel_for d) q b d L U) as [[r t] Hrun]; [done|].
  exists r, t. split; [done|]. rewrite fuel_for_succ in Hrun.
  apply research_inv in Hrun as [(Hp & -> & _)|(_ & results & _ & -> & _)].
  - destruct Hcase as [Hne|Hseed]; [done | exact Hseed].
  - apply merge_NoDup.
Qed.

(** C6.  When the planner returns no query, the invocation returns exactly
    the seed learnings and urls it was given and makes no further call; a
    completion service that fails on the planning call is such a case. *)
Theorem empty_plan_returns_seed (q : string) (b d : Z) (L U : option (list string)) :
  let seed := mkResearchResult (default [] L) (default [] U) in
  (plan q b (default [] L) = [] ->
   research q b d L U = Some (seed, Call b d [])) /\
  ((forall p, exists e, complete_queries system_prompt p b = inl e) ->
   plan q b (default [] L) = [] /\
   research q b d L U = Some (seed, Call b d [])).
Proof.
  intros seed.
  assert (Hempty : plan q b (default [] L) = [] ->
                   research q b d L U = Some (seed, Call b d [])).
  { intros Hp. unfold deep_research. rewrite fuel_for_succ.
    cbn [deep_research_fuel]. by rewrite Hp. }
  split; [done|]. intros Hdown.
  assert (plan q b (default [] L) = []) as Hp.
  { unfold generate_serp_queries.
    match goal with |- context [complete_queries _ ?p _] =>
      destruct (Hdown p) as [e ->] end. done. }
  by auto.
Qed.


End Orchestrator.

Lemma stub_plan_nonempty (q : string) (n : Z) (L : list string) :
  1 <= n ->
  DeepResearch.generate_serp_queries Stubs.system_prompt Stubs.complete_queries q n L <> [].
Proof.
  intros Hn. unfold DeepResearch.generate_serp_queries, Stubs.complete_queries.
  cbn [from_option id]. unfold PyStr.list_slice_to.
  destruct (n <? 0) eqn:E; [lia|].
  destruct (Z.to_nat n) as [|m] eqn:Em; [lia | done].
Qed.

Lemma stub_search_returns (q : string) (n : Z) :
  exists resp, Stubs.search_nothing q n = inr resp.
Proof. by eexists. Qed.



(** A search that raises in every branch also cuts the tree short: at
    depth 2 the root is then the only invocation. *)
Lemma deep_research_failed_search_stops_recursion :
  exists r,
    DeepResearch.deep_research Stubs.encoder Stubs.CONTEXT_SIZE Stubs.system_prompt
      (fun _ _ _ => inr (Some [DeepResearch.mkSerpQuery "bad" "goal"]))
      Stubs.complete_learnings Stubs.search "topic" 1 2 None None
    = Some (r, DeepResearch.Call 1 2 []).
Proof. eexists. vm_compute. reflexivity. Qed.


(** A failure of the completion service during extraction is not a failure
    of the branch: [process_serp_result] answers with empty lists and the
    branch goes on, so the urls it scraped are returned. *)
Lemma extraction_failure_keeps_urls :
  DeepResearch.deep_research Stubs.encoder Stubs.CONTEXT_SIZE Stubs.system_prompt
    Stubs.complete_queries Stubs.complete_learnings_down Stubs.search
    "topic" 1 1 None None
  = Some (DeepResearch.mkResearchResult [] ["http://a"; "http://b"],
          DeepResearch.Call 1 1 []).
Proof. vm_compute. reflexivity. Qed.

(** C3 as stated fails on the early-return path: a seed with a duplicate
    comes back unchanged when the planner yields nothing. *)
Lemma early_return_keeps_duplicates :
  exists r t,
    DeepResearch.deep_research Stubs.encoder Stubs.CONTEXT_SIZE Stubs.system_prompt
      Stubs.complete_queries_down Stubs.complete_learnings Stubs.search
      "topic" 2 1 (Some ["a"; "a"]) None = Some (r, t) /\
    DeepResearch.learnings r = ["a"; "a"] /\
    ~ NoDup (DeepResearch.learnings r).
Proof.
  eexists _, _. split; [vm_compute; reflexivity|]. split; [reflexivity|].
  cbn. intros H. apply NoDup_cons in H as [H _]. apply H. by left.
Qed.

Lemma result_deduplicated_witness :
  exists r t,
    DeepResearch.deep_research Stubs.encoder Stubs.CONTEXT_SIZE Stubs.system_prompt
      Stubs.complete_queries Stubs.complete_learnings Stubs.search
      "topic" 2 1 (Some ["a"; "a"]) (Some ["http://a"; "http://a"]) = Some (r, t) /\
    NoDup (DeepResearch.learnings r) /\ NoDup (DeepResearch.visited_urls r).
Proof.
  apply (result_deduplicated Stubs.encoder Stubs.CONTEXT_SIZE Stubs.system_prompt
           Stubs.complete_queries Stubs.complete_learnings Stubs.search
           "topic" 2 1 (Some ["a"; "a"]) (Some ["http://a"; "http://a"])).
  left. vm_compute. discriminate.
Defined.

Lemma empty_plan_returns_seed_witness :
  let seed := DeepResearch.mkResearchResult ["known"] ["http://seen"] in
  let research :=
    DeepResearch.deep_research Stubs.encoder Stubs.CONTEXT_SIZE Stubs.system_prompt
      Stubs.complete_queries_down Stubs.complete_learnings Stubs.search
      "topic" 3 2 (Some ["known"]) (Some ["http://seen"]) in
  research = Some (seed, DeepResearch.Call 3 2 []) /\
  DeepResearch.generate_serp_queries Stubs.system_prompt Stubs.complete_queries_down
    "topic" 3 ["known"] = [] /\
  research = Some (seed, DeepResearch.Call 3 2 []).
Proof.
  pose proof (empty_plan_returns_seed Stubs.encoder Stubs.CONTEXT_SIZE
                Stubs.system_prompt Stubs.complete_queries_down
                Stubs.complete_learnings Stubs.search
                "topic" 3 2 (Some ["known"]) (Some ["http://seen"])) as [H1 H2].
  split.
  - apply H1. reflexivity.
  - apply H2. intros p. eexists. reflexivity.
Defined.


(** C7, at a failing input.  The completion service answers with four
    learnings and four follow-up questions while [num_learnings] and
    [num_follow_up_questions] are both 3: [process_serp_result] returns all
    four of each, where [generate_serp_queries] cuts its list down to
    [num_queries]. *)
Theorem process_serp_result_keeps_extra_items :
  let processed :=
    DeepResearch.process_serp_result Stubs.encoder Stubs.CONTEXT_SIZE
      Stubs.system_prompt Stubs.complete_learnings "capital of France"
      (Some [DeepResearch.mkItem (Some "http://a") None
               (Some "Paris is the capital of France")]) 3 3 in
  DeepResearch.p_learnings processed = ["l1"; "l2"; "l3"; "l4"] /\
  DeepResearch.p_follow_up_questions processed = ["f1"; "f2"; "f3"; "f4"] /\
  (3 < length (DeepResearch.p_learnings processed))%nat /\
  (3 < length (DeepResearch.p_follow_up_questions processed))%nat /\
  length (DeepResearch.generate_serp_queries Stubs.system_prompt
            Stubs.complete_queries "topic" 1 []) = 1%nat.
Proof. vm_compute. repeat split; lia. Qed.

(* ===================================================================== *)
(** ** The concurrency gate *)
(* ===================================================================== *)

Module GateFacts.
Import Gate.
Local Open Scope nat_scope.

Lemma running_cons b l : running (b :: l) = flag b + running l.
Proof.
  unfold running, flag. rewrite filter_cons.
  destruct (is_running b); case_decide; simpl; congruence.
Qed.

(** Replacing one branch changes the count by the flags of the two. *)
Lemma running_insert l j b b' :
  l !! j = Some b ->
  running (<[j := b']> l) + flag b = running l + flag b'.
Proof.
  revert j. induction l as [|x l IH]; intros [|j] Hj; try done.
  - simpl in Hj. inversion Hj; subst. simpl. rewrite !running_cons. lia.
  - simpl in Hj. simpl. rewrite !running_cons. specialize (IH j Hj). lia.
Qed.

Lemma running_replicate_waiting n c :
  running (replicate n (mkBranch Waiting c)) = 0.
Proof. induction n as [|n IH]; [done|]. simpl. by rewrite running_cons, IH. Qed.

Lemma set_branch_gated capacity (s : state) i j inv b b' :
  s !! i = Some inv -> i_branches inv !! j = Some b ->
  Forall (gated capacity) s ->
  running_in inv + flag b' <= capacity + flag b ->
  Forall (gated capacity) (set_branch s i j b').
Proof.
  intros Hi Hj Hall Hle. unfold set_branch. rewrite Hi.
  apply Forall_insert; [done|].
  unfold gated, running_in in *. cbn [i_branches].
  pose proof (running_insert _ _ _ b' Hj) as Hins. lia.
Qed.

Lemma get_branch_Some (s : state) i j inv b :
  get_branch s i j = Some (inv, b) ->
  s !! i = Some inv /\ i_branches inv !! j = Some b.
Proof.
  unfold get_branch. intros H.
  destruct (s !! i) as [inv'|]; [|done]. cbn in H.
  destruct (i_branches inv' !! j) as [b'|] eqn:Hj; [|done]. cbn in H.
  inversion H; subst. auto.
Qed.

(** Every transition keeps every invocation within its own semaphore. *)
Lemma step_gated capacity s e s' :
  Forall (gated capacity) s -> step capacity s e = Some s' ->
  Forall (gated capacity) s'.
Proof.
  intros Hall Hstep.
  destruct e as [i j|i j n|i j]; cbn [step] in Hstep;
    destruct (get_branch s i j) as [[inv b]|] eqn:Hg; try done; cbn in Hstep;
    apply get_branch_Some in Hg as [Hi Hj].
  - destruct (b_phase b) eqn:Hph; try done. case_decide as Hcap; [|done].
    inversion Hstep; subst s'.
    eapply set_branch_gated; [done | done | done |].
    unfold flag, is_running. rewrite Hph. simpl. lia.
  - destruct (b_phase b) eqn:Hph; try done.
    destruct (b_child b); [done|].
    destruct (i_depth inv - 1 >? 0)%Z; [|done].
    inversion Hstep; subst s'. apply Forall_app. split.
    + eapply set_branch_gated; [done | done | done |].
      pose proof (Forall_lookup_1 _ _ _ _ Hall Hi) as Hinv. unfold gated in Hinv.
      unfold flag, is_running. rewrite Hph. simpl. lia.
    + apply Forall_singleton. unfold gated, running_in. cbn [i_branches].
      rewrite running_replicate_waiting. lia.
  - destruct (b_phase b) eqn:Hph; try done.
    match type of Hstep with (if ?c then _ else _) = _ => destruct c end; [|done].
    inversion Hstep; subst s'.
    eapply set_branch_gated; [done | done | done |].
    pose proof (Forall_lookup_1 _ _ _ _ Hall Hi) as Hinv. unfold gated in Hinv.
    unfold flag, is_running. rewrite Hph. simpl. lia.
Qed.

Lemma run_gated capacity es : forall s s',
  Forall (gated capacity) s -> run capacity s es = Some s' ->
  Forall (gated capacity) s'.
Proof.
  induction es as [|e es IH]; intros s s' Hall Hrun; cbn [run] in Hrun.
  - by inversion Hrun; subst.
  - destruct (step capacity s e) as [s1|] eqn:Hs; [|done]. cbn in Hrun.
    eapply IH; [|exact Hrun]. by eapply step_gated.
Qed.

Lemma init_gated capacity breadth depth n :
  Forall (gated capacity) (init breadth depth n).
Proof.
  apply Forall_singleton. unfold gated, running_in. cbn [i_branches].
  rewrite running_replicate_waiting. lia.
Qed.

End GateFacts.

(** C9, as amended.  The semaphore is created by each invocation of
    [deep_research], so what it bounds, in every state that the root
    invocation can reach, is the number of branch bodies in flight among the
    direct branches of one invocation: at most [capacity] for each
    invocation of the call tree. *)
Theorem gate_bounds_each_invocation (capacity : nat) (breadth depth : Z) (n : nat)
    (es : list Gate.event) (s : Gate.state) :
  Gate.run capacity (Gate.init breadth depth n) es = Some s ->
  Forall (fun inv => (Gate.running_in inv <= capacity)%nat) s.
Proof.
  intros Hrun.
  exact (GateFacts.run_gated capacity es _ _
           (GateFacts.init_gated capacity breadth depth n) Hrun).
Qed.

Lemma gate_bounds_each_invocation_witness :
  exists s,
    Gate.run 2 (Gate.init 2 2 2) Gate.three_in_flight = Some s /\
    Forall (fun inv => (Gate.running_in inv <= 2)%nat) s.
Proof.
  eexists. split; [reflexivity|].
  apply (gate_bounds_each_invocation 2 2 2 2 Gate.three_in_flight). reflexivity.
Defined.

(** C9 as stated fails: with the default capacity 2, that schedule has
    three branch bodies in flight at once, two of the root invocation and
    one of a child invocation. *)
Lemma gate_does_not_bound_the_call_tree :
  ~ (forall es s, Gate.run 2 (Gate.init 2 2 2) es = Some s ->
                  (Gate.in_flight s <= 2)%nat).
Proof.
  intros H.
  destruct (Gate.run 2 (Gate.init 2 2 2) Gate.three_in_flight) as [s|] eqn:Hrun;
    [|vm_compute in Hrun; discriminate].
  specialize (H _ _ Hrun). vm_compute in Hrun. inversion Hrun; subst s.
  vm_compute in H. lia.
Qed.

(* ===================================================================== *)
(** ** Further properties of the orchestrator and of the splitter *)
(* ===================================================================== *)


(** X2.  The seed is never lost by an invocation that returns normally:
    every seed learning and every seed url is in the returned lists, on the
    early-return path and on the merge path alike. *)
Theorem deep_research_keeps_seed (encoder : option (string -> nat))
    (CONTEXT_SIZE : Z) (system_prompt : string)
    (complete_queries : string -> string -> Z ->
                        result (option (list DeepResearch.SerpQuery)))
    (complete_learnings : string -> string -> Z -> Z ->
                          result (option (list string) * option (list string)))
    (search : string -> Z -> result DeepResearch.SearchResponse)
    (q : string) (b d : Z) (L U : option (list string)) :
  exists r t,
    DeepResearch.deep_research encoder CONTEXT_SIZE system_prompt complete_queries
      complete_learnings search q b d L U = Some (r, t) /\
    (forall x, x ∈ default [] L -> x ∈ DeepResearch.learnings r) /\
    (forall u, u ∈ default [] U -> u ∈ DeepResearch.visited_urls r).
Proof.
  unfold DeepResearch.deep_research.
  destruct (DeepResearchFacts.research_total encoder CONTEXT_SIZE system_prompt
              complete_queries complete_learnings search
              (DeepResearch.fuel_for d) q b d L U) as [[r t] Hrun]; [done|].
  exists r, t. split; [done|].
  apply DeepResearchFacts.research_keeps_seed in Hrun as [HL HU].
  split; intros x Hx.
  - apply (elem_of_list_to_set (C := gset string)), HL. by apply elem_of_list_to_set.
  - apply (elem_of_list_to_set (C := gset string)), HU. by apply elem_of_list_to_set.
Qed.





(* ===================================================================== *)
(** ** More on the splitter: what the chunks look like *)
(* ===================================================================== *)

Module ChunkFacts.
Import PyStr PyStrFacts TextSplitter TextSplitterFacts.

Lemma rstrip_idempotent s : rstrip (rstrip s) = rstrip s.
Proof.
  induction s as [|c s IH]; [done|]. cbn [rstrip].
  destruct (rstrip s) as [|d r] eqn:E.
  - destruct (is_space c) eqn:Ec; [done|]. cbn [rstrip]. by rewrite Ec.
  - cbn [rstrip]. cbn [rstrip] in IH. by rewrite IH.
Qed.

Lemma rstrip_keeps_head c s :
  is_space c = false -> exists t, rstrip (String c s) = String c t.
Proof.
  intros Hc. cbn [rstrip]. destruct (rstrip s); [rewrite Hc|]; by eexists.
Qed.

Lemma lstrip_head s :
  lstrip s = "" \/ exists c t, lstrip s = String c t /\ is_space c = false.
Proof.
  induction s as [|c s IH]; [by left|]. cbn [lstrip].
  destruct (is_space c) eqn:Ec; [done|]. right. by eauto.
Qed.

Lemma strip_idempotent s : strip (strip s) = strip s.
Proof.
  unfold strip. destruct (lstrip_head s) as [->|(c & t & -> & Hc)]; [done|].
  destruct (rstrip_keeps_head c t Hc) as [t' Ht]. rewrite Ht.
  cbn [lstrip]. rewrite Hc, <- Ht. apply rstrip_idempotent.
Qed.

Lemma strip_empty_lstrip s : strip s = "" -> lstrip s = "".
Proof.
  unfold strip. destruct (lstrip_head s) as [->|(c & t & -> & Hc)]; [done|].
  destruct (rstrip_keeps_head c t Hc) as [t' ->]. done.
Qed.

Lemma lstrip_app_empty a b : lstrip (a +:+ b) = "" -> lstrip a = "" /\ lstrip b = "".
Proof.
  induction a as [|c a IH].
  - change ("" +:+ b) with b. by intros ->.
  - change (String c a +:+ b) with (String c (a +:+ b)). cbn [lstrip].
    destruct (is_space c); [done | done].
Qed.

Lemma lstrip_empty_strip s : lstrip s = "" -> strip s = "".
Proof. unfold strip. by intros ->. Qed.

(** A blank join is made of blank pieces. *)
Lemma blank_join_elem sep (g : list string) (d : string) :
  strip (join sep g) = "" -> d ∈ g -> strip d = "".
Proof.
  intros Hj Hd. apply strip_empty_lstrip in Hj. apply lstrip_empty_strip.
  induction g as [|x g IH]; [inversion Hd|].
  destruct g as [|y g].
  - apply list_elem_of_singleton in Hd as ->. exact Hj.
  - change (join sep (x :: y :: g)) with (x +:+ sep +:+ join sep (y :: g)) in Hj.
    apply lstrip_app_empty in Hj as [Hx Hj].
    apply lstrip_app_empty in Hj as [_ Hj].
    apply elem_of_cons in Hd as [->|Hd]; [done | by apply IH].
Qed.

Section Emitted.
Variable self : t.
(** A property that every string returned by [_join_docs] has. *)
Variable P : string -> Prop.
Hypothesis P_joined : forall sep g doc, join_docs g sep = Some doc -> P doc.

Lemma merge_step_emitted sep docs cur total d :
  Forall P docs -> Forall P (merge_step self sep (docs, cur, total) d).1.1.
Proof.
  intros Hdocs. unfold merge_step.
  destruct (total + len d >=? chunk_size self); [|done].
  destruct cur as [|c0 cur0]; [done|].
  destruct (pop_front self (len d) (c0 :: cur0) total) as [cur' total'].
  destruct (join_docs (c0 :: cur0) sep) as [doc|] eqn:Ej; [|done].
  cbn. apply Forall_app. split; [done|]. apply Forall_singleton. by eapply P_joined.
Qed.

Lemma merge_splits_emitted sep splits : Forall P (merge_splits self splits sep).
Proof.
  unfold merge_splits.
  assert (forall st, Forall P st.1.1 ->
                     Forall P (fold_left (merge_step self sep) splits st).1.1) as Hfold.
  { induction splits as [|d splits IH]; intros st Hst; [done|].
    cbn [fold_left]. apply IH. destruct st as [[docs cur] total].
    by apply merge_step_emitted. }
  specialize (Hfold ([], [], 0) (Forall_nil_2 _)).
  destruct (fold_left _ splits _) as [[docs cur] total]. cbn in Hfold.
  unfold merge_finish. destruct (join_docs cur sep) as [doc|] eqn:Ej; [|done].
  apply Forall_app. split; [done|]. apply Forall_singleton. by eapply P_joined.
Qed.

Lemma split_loop_emitted rec sep :
  forall splits good final r,
    Forall P final ->
    (forall s r', rec s = inr r' -> Forall P r') ->
    split_loop self rec sep splits good final = inr r ->
    Forall P r.
Proof.
  assert (forall good final, Forall P final -> Forall P (flush self sep good final))
    as Hflush.
  { intros good final Hfinal. unfold flush. destruct good; [done|].
    apply Forall_app. split; [done | apply merge_splits_emitted]. }
  induction splits as [|s rest IH]; intros good final r Hfinal Hrec Hrun;
    cbn [split_loop] in Hrun.
  - inversion Hrun; subst. by apply Hflush.
  - destruct (len s <? chunk_size self); [by eapply IH|].
    destruct (rec s) as [e|other] eqn:Er; [done|].
    eapply IH; [| exact Hrec | exact Hrun].
    apply Forall_app. split; [by apply Hflush | by eapply Hrec].
Qed.

Lemma split_text_emitted fuel text r :
  split_text fuel self text = inr r -> Forall P r.
Proof.
  revert text r. induction fuel as [|fuel IH]; intros text r Hrun; [done|].
  cbn [split_text] in Hrun.
  eapply split_loop_emitted; [| | exact Hrun]; [done|]. intros s r'. apply IH.
Qed.
End Emitted.

Lemma sum_len_join_empty (g : list string) : len (join "" g) = sum_len g.
Proof.
  unfold len. induction g as [|x g IH]; [done|].
  rewrite length_join_cons. cbn [sum_len foldr]. fold (sum_len g).
  destruct g as [|y g]; [simpl; unfold len; lia|].
  rewrite <- IH. simpl String.length. unfold len. lia.
Qed.

Lemma split_loop_all_small self rec sep splits good final :
  Forall (fun d => len d < chunk_size self) splits ->
  split_loop self rec sep splits good final
  = inr (flush self sep (good ++ splits) final).
Proof.
  revert good. induction splits as [|s rest IH]; intros good Hall; cbn [split_loop].
  - by rewrite app_nil_r.
  - apply Forall_cons in Hall as [Hs Hall].
    destruct (len s <? chunk_size self) eqn:E; [|lia].
    rewrite IH by done. by rewrite <- app_assoc.
Qed.

Lemma first_separator_only_empty seps text :
  "" ∈ seps ->
  (forall s, s ∈ seps -> s <> "" -> contains s text = false) ->
  first_separator seps text = Some "".
Proof.
  induction seps as [|s seps IH]; intros Hin Hnone; [inversion Hin|].
  cbn [first_separator]. case_decide as Hs; [by subst|].
  rewrite (Hnone s) by (done || by left).
  apply IH.
  - apply elem_of_cons in Hin as [Hin|Hin]; [by subst | done].
  - intros s' Hs'. apply Hnone. by right.
Qed.

(** Pieces that are kept in [current_doc] or have been joined into a
    chunk, or are blank. *)
Lemma merge_fold_keeps self sep splits :
  forall done docs cur total,
    (forall d, d ∈ done ->
       d ∈ cur \/ strip d = "" \/
       exists g, d ∈ g /\ g ⊆ done /\ strip (join sep g) ∈ docs) ->
    cur ⊆ done ->
    let '(docs', cur', _) :=
      fold_left (merge_step self sep) splits (docs, cur, total) in
    (forall d, d ∈ done ++ splits ->
       d ∈ cur' \/ strip d = "" \/
       exists g, d ∈ g /\ g ⊆ done ++ splits /\ strip (join sep g) ∈ docs') /\
    cur' ⊆ done ++ splits.
Proof.
  induction splits as [|s rest IH]; intros done docs cur total Hcov Hcur.
  - cbn [fold_left]. by rewrite app_nil_r.
  - cbn [fold_left].
    destruct (merge_step self sep (docs, cur, total) s) as [[docs1 cur1] total1] eqn:Es.
    replace (done ++ s :: rest) with ((done ++ [s]) ++ rest) by (by rewrite <- app_assoc).
    apply IH.
    + unfold merge_step in Es.
      destruct (total + len s >=? chunk_size self).
      * destruct cur as [|c0 cur0].
        { inversion Es; subst. intros d Hd.
          apply elem_of_app in Hd as [Hd|Hd].
          - destruct (Hcov d Hd) as [Hin|[Hb|(g & Hg & Hsub & Hdoc)]].
            + inversion Hin.
            + by right; left.
            + right; right. exists g. split; [done|]. split; [set_solver | done].
          - left. set_solver. }
        destruct (pop_front self (len s) (c0 :: cur0) total) as [cur' total'] eqn:Ep.
        assert (cur' ⊆ c0 :: cur0) as Hsuf.
        { clear -Ep. revert total cur' total' Ep.
          generalize (c0 :: cur0) as l.
          induction l as [|x l IHl]; intros total cur' total' Ep; cbn [pop_front] in Ep.
          - destruct (_ || _); inversion Ep; set_solver.
          - destruct (_ || _).
            + apply IHl in Ep. set_solver.
            + inversion Ep; subst. set_solver. }
        inversion Es; subst. clear Es. intros d Hd.
        apply elem_of_app in Hd as [Hd|Hd]; [|left; set_solver].
        destruct (Hcov d Hd) as [Hin|[Hb|(g & Hg & Hsub & Hdoc)]].
        { unfold join_docs. case_decide as Hj.
          - right; left. by eapply blank_join_elem.
          - right; right. exists (c0 :: cur0). split; [done|].
            split; [set_solver | set_solver]. }
        { by right; left. }
        { right; right. exists g. split; [done|]. split; [set_solver|].
          destruct (join_docs (c0 :: cur0) sep); set_solver. }
      * inversion Es; subst. intros d Hd.
        apply elem_of_app in Hd as [Hd|Hd]; [|left; set_solver].
        destruct (Hcov d Hd) as [Hin|[Hb|(g & Hg & Hsub & Hdoc)]].
        { left. set_solver. }
        { by right; left. }
        { right; right. exists g. split; [done|]. split; [set_solver | done]. }
    + unfold merge_step in Es.
      destruct (total + len s >=? chunk_size self).
      * destruct cur as [|c0 cur0]; [inversion Es; set_solver|].
        destruct (pop_front self (len s) (c0 :: cur0) total) as [cur' total'] eqn:Ep.
        assert (cur' ⊆ c0 :: cur0) as Hsuf.
        { clear -Ep. revert total cur' total' Ep.
          generalize (c0 :: cur0) as l.
          induction l as [|x l IHl]; intros total cur' total' Ep; cbn [pop_front] in Ep.
          - destruct (_ || _); inversion Ep; set_solver.
          - destruct (_ || _).
            + apply IHl in Ep. set_solver.
            + inversion Ep; subst. set_solver. }
        inversion Es; subst. set_solver.
      * inversion Es; subst. set_solver.
Qed.

End ChunkFacts.

(** X5.  Every chunk that [split_text] returns is non-empty and carries no
    leading or trailing whitespace: it is left unchanged by [strip]. *)
Theorem split_text_chunks_stripped (self : TextSplitter.t) (fuel : nat)
    (text : string) (chunks : list string) :
  TextSplitter.split_text fuel self text = inr chunks ->
  Forall (fun c => c <> "" /\ PyStr.strip c = c) chunks.
Proof.
  apply ChunkFacts.split_text_emitted.
  intros sep g doc. unfold TextSplitter.join_docs. case_decide as Hj; [done|].
  intros Hdoc. inversion Hdoc; subst. split; [done|].
  apply ChunkFacts.strip_idempotent.
Qed.

Lemma split_text_chunks_stripped_witness :
  Forall (fun c => c <> "" /\ PyStr.strip c = c) ["the quick"; "brown fox"].
Proof.
  apply (split_text_chunks_stripped (TextSplitter.mk 10 2 [" "; ""]) 20
           "the quick  brown fox  ").
  vm_compute. reflexivity.
Defined.

(** X6.  When the text holds none of the non-empty separators, so that it
    is cut into single characters, [split_text] returns and every chunk is
    at most [chunk_size] characters long. *)
Theorem split_text_characters_within_chunk_size (self : TextSplitter.t)
    (fuel : nat) (text : string) :
  2 <= TextSplitter.chunk_size self ->
  "" ∈ TextSplitter.separators self ->
  (forall s, s ∈ TextSplitter.separators self -> s <> "" ->
             PyStr.contains s text = false) ->
  exists chunks,
    TextSplitter.split_text (S fuel) self text = inr chunks /\
    Forall (fun c => PyStr.len c <= TextSplitter.chunk_size self) chunks.
Proof.
  intros Hcs Hin Hnone. cbn [TextSplitter.split_text].
  unfold TextSplitter.choose_separator.
  rewrite (ChunkFacts.first_separator_only_empty _ _ Hin Hnone).
  rewrite decide_True by done.
  assert (Forall (fun d => PyStr.len d < TextSplitter.chunk_size self)
                 (PyStr.chars text)) as Hsmall.
  { apply Forall_forall. intros d Hd. apply PyStrFacts.chars_length_one in Hd.
    unfold PyStr.len. lia. }
  rewrite ChunkFacts.split_loop_all_small by done. eexists. split; [done|].
  unfold TextSplitter.flush. cbn [app].
  destruct (PyStr.chars text) as [|c0 cs] eqn:Ec; [done|].
  eapply Forall_impl;
    [apply (TextSplitterFacts.merge_splits_chunks self "" (c0 :: cs) Hsmall)|].
  intros doc (g & _ & _ & -> & Hsum).
  pose proof (PyStrFacts.length_strip (PyStr.join "" g)) as Hstrip.
  pose proof (ChunkFacts.sum_len_join_empty g) as Hjoin.
  unfold PyStr.len in *. lia.
Qed.

Lemma split_text_characters_within_chunk_size_witness :
  exists chunks,
    TextSplitter.split_text 1 (TextSplitter.mk 5 2 [" "; ""]) "abcdefghijkl"
      = inr chunks /\
    Forall (fun c => PyStr.len c <= 5) chunks.
Proof.
  apply (split_text_characters_within_chunk_size
           (TextSplitter.mk 5 2 [" "; ""]) 0 "abcdefghijkl").
  - simpl. lia.
  - simpl. apply list_elem_of_further, list_elem_of_here.
  - intros s Hs Hne. simpl in Hs.
    apply elem_of_cons in Hs as [->|Hs]; [reflexivity|].
    apply list_elem_of_singleton in Hs. contradiction.
Defined.

(** X7.  When [merge_splits] emits a chunk because the next piece would
    reach [chunk_size], the pieces it carries over into the next chunk are
    a suffix of the emitted group whose lengths sum to at most
    [chunk_overlap] (to nothing when the overlap is negative). *)
Theorem merge_step_carries_at_most_overlap (self : TextSplitter.t)
    (separator : string) (docs cur : list string) (d : string) :
  cur <> [] ->
  TextSplitter.chunk_size self <= TextSplitter.sum_len cur + PyStr.len d ->
  exists carried,
    TextSplitter.merge_step self separator (docs, cur, TextSplitter.sum_len cur) d
    = (match TextSplitter.join_docs cur separator with
       | Some doc => docs ++ [doc]
       | None => docs
       end,
       carried ++ [d], TextSplitter.sum_len carried + PyStr.len d) /\
    carried `suffix_of` cur /\
    TextSplitter.sum_len carried <= Z.max 0 (TextSplitter.chunk_overlap self).
Proof.
  intros Hne Hfull. unfold TextSplitter.merge_step.
  destruct (_ >=? _) eqn:E; [|lia].
  destruct cur as [|c0 cur0]; [done|].
  destruct (TextSplitterFacts.pop_front_spec self (PyStr.len d) (c0 :: cur0))
    as (carried & -> & Hsuf & Hstop).
  exists carried. split; [done|]. split; [done|].
  destruct Hstop as [->|[Hle _]]; [simpl; lia | lia].
Qed.

Lemma merge_step_carries_at_most_overlap_witness :
  exists carried,
    TextSplitter.merge_step (TextSplitter.mk 10 5 [" "; ""]) " "
      ([], ["the"; "quick"], TextSplitter.sum_len ["the"; "quick"]) "brown"
    = (["the quick"], carried ++ ["brown"],
       TextSplitter.sum_len carried + PyStr.len "brown") /\
    carried `suffix_of` ["the"; "quick"] /\
    TextSplitter.sum_len carried <= Z.max 0 5.
Proof.
  apply (merge_step_carries_at_most_overlap (TextSplitter.mk 10 5 [" "; ""]) " "
           [] ["the"; "quick"] "brown").
  - discriminate.
  - vm_compute. discriminate.
Defined.

(** X8.  [merge_splits] loses no piece: every piece that is not blank is
    joined into at least one of the returned chunks, in a group made of the
    given pieces. *)
Theorem merge_splits_keeps_every_piece (self : TextSplitter.t)
    (splits : list string) (separator : string) (d : string) :
  d ∈ splits ->
  PyStr.strip d = "" \/
  exists g, d ∈ g /\ g ⊆ splits /\
            PyStr.strip (PyStr.join separator g)
              ∈ TextSplitter.merge_splits self splits separator.
Proof.
  intros Hd. unfold TextSplitter.merge_splits.
  pose proof (ChunkFacts.merge_fold_keeps self separator splits [] [] [] 0) as Hkeep.
  destruct (fold_left _ splits _) as [[docs cur] total].
  destruct Hkeep as [Hcov Hcur]; [intros d' Hd'; inversion Hd' | done |].
  cbn [app] in Hcov, Hcur.
  unfold TextSplitter.merge_finish, TextSplitter.join_docs.
  destruct (Hcov d Hd) as [Hin|[Hb|(g & Hg & Hsub & Hdoc)]].
  - case_decide as Hj.
    + left. by eapply ChunkFacts.blank_join_elem.
    + right. exists cur. split; [done|]. split; [done | set_solver].
  - by left.
  - right. exists g. split; [done|]. split; [done|]. case_decide; set_solver.
Qed.

Lemma merge_splits_keeps_every_piece_witness :
  PyStr.strip "quick" = "" \/
  exists g, "quick" ∈ g /\ g ⊆ ["the"; "quick"; "brown"; "fox"] /\
            PyStr.strip (PyStr.join " " g)
              ∈ TextSplitter.merge_splits (TextSplitter.mk 10 2 [" "; ""])
                  ["the"; "quick"; "brown"; "fox"] " ".
Proof.
  apply (merge_splits_keeps_every_piece (TextSplitter.mk 10 2 [" "; ""])
           ["the"; "quick"; "brown"; "fox"] " " "quick").
  apply list_elem_of_further, list_elem_of_here.
Defined.

Module DocumentsFacts.
Import PyStr TextSplitter Documents.

Lemma create_documents_app self (a b : list string) da db :
  create_documents self a = inr da ->
  create_documents self b = inr db ->
  create_documents self (a ++ b) = inr (da ++ db).
Proof.
  revert da. induction a as [|text a IH]; intros da Ha Hb; cbn [create_documents app] in *.
  - by inversion Ha.
  - destruct (split_text _ self text) as [e|chunks]; [done|].
    destruct (create_documents self a) as [e|docs]; [done|].
    inversion Ha; subst. rewrite (IH docs) by done. by rewrite <- app_assoc.
Qed.

Lemma create_documents_total self (texts : list string) :
  2 <= chunk_size self -> "" ∈ separators self ->
  exists docs, create_documents self texts = inr docs.
Proof.
  intros Hcs Hsep. induction texts as [|text texts [docs IH]]; cbn [create_documents].
  - by eexists.
  - destruct (TextSplitterFacts.split_text_total self (S (String.length text)) text)
      as [chunks ->]; [done | done | lia |].
    rewrite IH. by eexists.
Qed.

End DocumentsFacts.

(** X9.  For a splitter with the empty separator and a chunk size of at
    least two, [create_documents] returns for every list of texts, and it
    keeps the order of the texts: the documents of [a ++ b] are the
    documents of [a] followed by those of [b]; [split_documents] is the
    same function. *)
Theorem create_documents_in_order (self : TextSplitter.t) (a b : list string) :
  2 <= TextSplitter.chunk_size self ->
  "" ∈ TextSplitter.separators self ->
  exists da db,
    Documents.create_documents self a = inr da /\
    Documents.create_documents self b = inr db /\
    Documents.split_documents self (a ++ b) = inr (da ++ db).
Proof.
  intros Hcs Hsep.
  destruct (DocumentsFacts.create_documents_total self a Hcs Hsep) as [da Ha].
  destruct (DocumentsFacts.create_documents_total self b Hcs Hsep) as [db Hb].
  exists da, db. split; [done|]. split; [done|].
  by apply DocumentsFacts.create_documents_app.
Qed.

Lemma create_documents_in_order_witness :
  exists da db,
    Documents.create_documents (TextSplitter.mk 10 2 [" "; ""]) ["the quick brown fox"]
      = inr da /\
    Documents.create_documents (TextSplitter.mk 10 2 [" "; ""]) ["jumps"] = inr db /\
    Documents.split_documents (TextSplitter.mk 10 2 [" "; ""])
      (["the quick brown fox"] ++ ["jumps"]) = inr (da ++ db).
Proof.
  apply (create_documents_in_order (TextSplitter.mk 10 2 [" "; ""])
           ["the quick brown fox"] ["jumps"]).
  - simpl. lia.
  - simpl. apply list_elem_of_further, list_elem_of_here.
Defined.

(* ===================================================================== *)
(** ** More on [trim_prompt] *)
(* ===================================================================== *)

Module TrimFacts.
Import PyStr PyStrFacts TextSplitter TextSplitterFacts Providers ProvidersFacts.

Lemma length_slice_to_le n s : (String.length (slice_to n s) <= String.length s)%nat.
Proof. unfold slice_to. destruct (n <? 0); rewrite length_take; lia. Qed.

Lemma trim_prompt_fuel_length encoder fuel prompt context_size r :
  trim_prompt_fuel encoder fuel prompt context_size = Some r ->
  (String.length r <= String.length prompt)%nat.
Proof.
  revert prompt. induction fuel as [|fuel IH]; intros prompt Hrun; [done|].
  cbn [trim_prompt_fuel] in Hrun. case_decide as Hp.
  { inversion Hrun. simpl. lia. }
  destruct encoder as [count|].
  2:{ inversion Hrun. apply length_slice_to_le. }
  cbv zeta in Hrun.
  destruct (_ <=? context_size); [by inversion Hrun|].
  destruct (_ <? MIN_CHUNK_SIZE); [inversion Hrun; apply length_slice_to_le|].
  destruct (init _ 0 None) as [e|splitter];
    [inversion Hrun; apply length_slice_to_le|].
  destruct (split_text _ splitter prompt) as [e|chunks] eqn:Es;
    [inversion Hrun; apply length_slice_to_le|].
  apply first_chunk_length in Es.
  case_decide; apply IH in Hrun.
  - etrans; [exact Hrun | apply length_slice_to_le].
  - lia.
Qed.

(** With the encoding available, what comes back is within the budget
    or has reached the floor of [MIN_CHUNK_SIZE] characters. *)
Lemma trim_prompt_fuel_fits count fuel prompt context_size r :
  trim_prompt_fuel (Some count) fuel prompt context_size = Some r ->
  Z.of_nat (count r) <= context_size \/ len r <= MIN_CHUNK_SIZE.
Proof.
  revert prompt. induction fuel as [|fuel IH]; intros prompt Hrun; [done|].
  cbn [trim_prompt_fuel] in Hrun. case_decide as Hp.
  { inversion Hrun. right. unfold len, MIN_CHUNK_SIZE. simpl. lia. }
  cbv zeta in Hrun.
  destruct (_ <=? context_size) eqn:E1.
  { inversion Hrun; subst. left. lia. }
  destruct (_ <? MIN_CHUNK_SIZE) eqn:E2.
  { inversion Hrun. right. unfold len, MIN_CHUNK_SIZE.
    rewrite length_slice_to by lia. lia. }
  unfold MIN_CHUNK_SIZE in E2.
  destruct (init _ 0 None) as [e|splitter] eqn:Ei.
  { unfold init in Ei. destruct (0 >=? _) eqn:E3; [lia | done]. }
  destruct (split_text _ splitter prompt) as [e|chunks] eqn:Es.
  { destruct (split_text_total splitter (S (String.length prompt)) prompt)
      as [r' Hr']; [| | lia | congruence].
    - unfold init in Ei. destruct (0 >=? _); [done|].
      inversion Ei; subst splitter. simpl. lia.
    - unfold init in Ei. destruct (0 >=? _); [done|].
      inversion Ei; subst splitter. apply default_separators_empty. }
  case_decide; by eapply IH.
Qed.

End TrimFacts.

(** X10.  [trim_prompt] never lengthens a prompt: for every tokenizer state,
    prompt and context size, also a negative one, the result has at most as
    many characters as the prompt. *)
Theorem trim_prompt_never_longer (encoder : option (string -> nat))
    (CONTEXT_SIZE : Z) (prompt : string) (context_size : option Z) :
  PyStr.len (Providers.trim_prompt encoder CONTEXT_SIZE prompt context_size)
  <= PyStr.len prompt.
Proof.
  unfold Providers.trim_prompt.
  destruct (Providers.trim_prompt_fuel encoder _ prompt _) as [r|] eqn:Hrun.
  - apply TrimFacts.trim_prompt_fuel_length in Hrun. cbn. unfold PyStr.len. lia.
  - cbn. lia.
Qed.


(* ===================================================================== *)
(** ** More on the orchestrator: bounds and provenance *)
(* ===================================================================== *)

Module OrchestratorFacts.
Import PyStr DeepResearch DeepResearchFacts CallTreeBounds.

Lemma list_slice_to_length {A} (n : Z) (l : list A) :
  0 <= n -> Z.of_nat (length (list_slice_to n l)) <= n.
Proof.
  intros Hn. unfold list_slice_to. destruct (n <? 0) eqn:E; [lia|].
  rewrite length_firstn. lia.
Qed.

Lemma list_slice_to_prefix {A} (n : Z) (l : list A) : list_slice_to n l `prefix_of` l.
Proof.
  unfold list_slice_to.
  destruct (n <? 0); eexists; symmetry; apply firstn_skipn.
Qed.

Lemma fan_out_nonneg (b : Z) (k : nat) : 0 <= b -> 0 <= fan_out b k.
Proof.
  revert b. induction k as [|k IH]; intros b Hb; cbn [fan_out]; [lia|].
  apply Z.mul_nonneg_nonneg; [done|]. apply IH. lia.
Qed.

Lemma flat_map_length_le {A B} (f : A -> list B) (l : list A) (M : Z) :
  0 <= M ->
  Forall (fun c => Z.of_nat (length (f c)) <= M) l ->
  Z.of_nat (length (flat_map f l)) <= Z.of_nat (length l) * M.
Proof.
  intros HM. induction 1 as [|c l Hc _ IH]; cbn [flat_map length]; [lia|].
  rewrite length_app. lia.
Qed.

Section Services.
Variable encoder : option (string -> nat).
Variable CONTEXT_SIZE : Z.
Variable system_prompt : string.
Variable complete_queries :
  string -> string -> Z -> result (option (list SerpQuery)).
Variable complete_learnings :
  string -> string -> Z -> Z ->
  result (option (list string) * option (list string)).
Variable search : string -> Z -> result SearchResponse.

Local Abbreviation plan :=
  (generate_serp_queries system_prompt complete_queries).
Local Abbreviation extract :=
  (process_serp_result encoder CONTEXT_SIZE system_prompt complete_learnings).
Local Abbreviation branch :=
  (process_query encoder CONTEXT_SIZE system_prompt complete_learnings search).
Local Abbreviation research :=
  (deep_research_fuel encoder CONTEXT_SIZE system_prompt
     complete_queries complete_learnings search).

Local Abbreviation extracted := (Provenance.extracted system_prompt complete_learnings).
Local Abbreviation found := (Provenance.found search).

Lemma plan_length q n L : 0 <= n -> Z.of_nat (length (plan q n L)) <= n.
Proof.
  intros Hn. unfold generate_serp_queries.
  destruct (complete_queries _ _ _) as [e|res]; [simpl; lia|].
  by apply list_slice_to_length.
Qed.

Lemma extract_learnings_extracted q resp n m x :
  x ∈ p_learnings (extract q resp n m) -> extracted x.
Proof.
  unfold process_serp_result.
  destruct (match resp with Some items => _ | None => [] end) as [|c cs];
    [intros Hx; inversion Hx|].
  destruct (complete_learnings _ _ _ _) as [e|[ls fs]] eqn:Ec;
    [intros Hx; inversion Hx|].
  cbn [p_learnings]. destruct ls as [ls|]; [|intros Hx; inversion Hx].
  cbn [from_option id]. intros Hx. repeat eexists; [exact Ec | exact Hx].
Qed.

Lemma scrape_urls_found q n resp u :
  search q n = inr resp -> u ∈ (scrape resp).1 -> found u.
Proof.
  intros Hs. unfold scrape. destruct resp as [items|]; [|intros Hu; inversion Hu].
  cbn [fst]. intros Hu.
  apply list_elem_of_In, in_map_iff in Hu as ([u' it] & Hfst & Hin).
  cbn in Hfst. subst u'.
  apply in_flat_map in Hin as (item & Hitem & Hin).
  unfold scrape_item in Hin.
  destruct (truthy (item_url item)) eqn:Et; [|inversion Hin].
  destruct Hin as [Hin|[]]. inversion Hin as [[Hu Hit]].
  exists q, n, items, item. split; [done|]. split; [by apply list_elem_of_In|].
  destruct (item_url item); [done | discriminate].
Qed.

(** What a branch returns, with the extraction it ran. *)
Lemma branch_cases (rec : research_fn) b d L U sq r cs :
  branch rec b d L U sq = Some (r, cs) ->
  ((exists e, search (query sq) 5 = inl e) /\ r = mkResearchResult [] [] /\ cs = []) \/
  (exists resp,
     search (query sq) 5 = inr resp /\
     let processed := extract (query sq) (Some (scrape resp).2) 3 (Z.max 1 (b / 2)) in
     let L' := L ++ p_learnings processed in
     let U' := U ++ (scrape resp).1 in
     (exists q' t, rec q' (Z.max 1 (b / 2)) (d - 1) (Some L') (Some U') = Some (r, t) /\
                   cs = [t]) \/
     (r = mkResearchResult L' U' /\ cs = [])).
Proof.
  unfold process_query, process_query_body. intros Hrun.
  destruct (search (query sq) 5) as [e|resp];
    [left; split; [by eexists | by inversion Hrun]|].
  right. exists resp. split; [done|].
  destruct (scrape resp) as [new_urls scraped]. cbn [fst snd].
  destruct (d - 1 >? 0).
  - left. destruct (rec _ _ _ _ _) as [[r' t']|] eqn:Er; [|done].
    cbn in Hrun. inversion Hrun; subst. eexists _, _. split; [exact Er | done].
  - right. by inversion Hrun.
Qed.

(** Every returned learning is a seed learning or was returned by the
    completion service; every returned url is a seed url or was found by
    the search service. *)
Lemma research_provenance fuel : forall q b d L U r t,
  research fuel q b d L U = Some (r, t) ->
  (forall x, x ∈ learnings r -> x ∈ default [] L \/ extracted x) /\
  (forall u, u ∈ visited_urls r -> u ∈ default [] U \/ found u).
Proof.
  induction fuel as [|fuel IH]; intros q b d L U r t Hrun; [done|].
  apply research_inv in Hrun as [(_ & -> & _)|(_ & results & HF & -> & _)].
  { split; intros x Hx; by left. }
  assert (forall rb, rb ∈ map fst results ->
            (forall x, x ∈ learnings rb -> x ∈ default [] L \/ extracted x) /\
            (forall u, u ∈ visited_urls rb -> u ∈ default [] U \/ found u)) as Hbr.
  { intros rb Hrb.
    apply list_elem_of_In, in_map_iff in Hrb as ([rb' cs] & Hfst & Hin).
    cbn in Hfst. subst rb'. apply list_elem_of_In, list_elem_of_lookup in Hin as [i Hi].
    destruct (Forall2_lookup_r _ _ _ _ _ HF Hi) as (sq & _ & Hb).
    apply branch_cases in Hb as [(_ & -> & _)|(resp & Hs & Hb)].
    { split; intros x Hx; inversion Hx. }
    cbv zeta in Hb. destruct Hb as [(q' & t' & Hr' & _)|[-> _]].
    - apply IH in Hr' as [HL HU]. cbn [from_option id] in HL, HU. split.
      + intros x Hx. destruct (HL x Hx) as [Hin'|Hex]; [|by right].
        apply elem_of_app in Hin' as [Hin'|Hin']; [by left|].
        right. by eapply extract_learnings_extracted.
      + intros u Hu. destruct (HU u Hu) as [Hin'|Hex]; [|by right].
        apply elem_of_app in Hin' as [Hin'|Hin']; [by left|].
        right. by eapply scrape_urls_found.
    - cbn [learnings visited_urls]. split.
      + intros x Hx. apply elem_of_app in Hx as [Hx|Hx]; [by left|].
        right. by eapply extract_learnings_extracted.
      + intros u Hu. apply elem_of_app in Hu as [Hu|Hu]; [by left|].
        right. by eapply scrape_urls_found. }
  split.
  - intros x Hx. apply (elem_of_list_to_set (C := gset string)) in Hx.
    rewrite merge_learnings in Hx. apply elem_of_union in Hx as [Hx|Hx].
    + left. by apply elem_of_list_to_set in Hx.
    + apply elem_of_union_list in Hx as (X & HX & Hx).
      apply list_elem_of_fmap in HX as (rb & -> & Hrb).
      apply elem_of_list_to_set in Hx. by apply (Hbr rb Hrb).
  - intros u Hu. apply (elem_of_list_to_set (C := gset string)) in Hu.
    rewrite merge_visited_urls in Hu. apply elem_of_union in Hu as [Hu|Hu].
    + left. by apply elem_of_list_to_set in Hu.
    + apply elem_of_union_list in Hu as (X & HX & Hu).
      apply list_elem_of_fmap in HX as (rb & -> & Hrb).
      apply elem_of_list_to_set in Hu. by apply (Hbr rb Hrb).
Qed.

(** The number of invocations at each level of the call tree. *)
Lemma research_fan_out fuel : forall q b d L U r t (k : nat),
  0 <= b ->
  research fuel q b d L U = Some (r, t) ->
  Z.of_nat (length (calls_at k t)) <= fan_out b k.
Proof.
  induction fuel as [|fuel IH]; intros q b d L U r t k Hb Hrun; [done|].
  apply research_inv in Hrun as [(_ & _ & ->)|(_ & results & HF & _ & ->)].
  { destruct k; cbn [calls_at flat_map length fan_out]; [lia|].
    apply Z.mul_nonneg_nonneg; [done | apply fan_out_nonneg; lia]. }
  destruct k as [|k]; cbn [calls_at fan_out]; [simpl; lia|].
  set (children := concat (map snd results)).
  assert (Z.of_nat (length children) <= b) as Hcount.
  { pose proof (plan_length q b (default [] L) Hb) as Hplan.
    rewrite (Forall2_length _ _ _ HF) in Hplan.
    assert (length children <= length results)%nat; [|lia].
    subst children. clear Hplan.
    induction HF as [|sq [rb cs] sqs results Hbr _ IHF]; [done|].
    csimpl. rewrite length_app.
    apply branch_cases in Hbr as [(_ & _ & ->)|(resp & _ & Hbr)]; [simpl; lia|].
    cbv zeta in Hbr. destruct Hbr as [(q' & t' & _ & ->)|[_ ->]]; simpl; lia. }
  pose proof (fan_out_nonneg (Z.max 1 (b / 2)) k ltac:(lia)) as HM.
  etrans; [apply (flat_map_length_le _ _ (fan_out (Z.max 1 (b / 2)) k) HM)|].
  - apply Forall_forall. intros c Hc.
    apply (children_inv _ _ _ _ _ _ _ _ _ _ _ _ _ _ HF) in Hc
      as (_ & q' & L' & U' & r' & Hr').
    eapply IH; [|exact Hr']. lia.
  - apply Z.mul_le_mono_nonneg_r; done.
Qed.

End Services.
End OrchestratorFacts.

(** X12.  [generate_serp_queries] returns at most [num_queries] queries when
    [num_queries] is not negative, and what it returns is always a prefix
    of the list the completion service answered with (the empty list when
    the service failed or gave no such entry). *)
Theorem generate_serp_queries_bounded (system_prompt : string)
    (complete_queries : string -> string -> Z ->
                        result (option (list DeepResearch.SerpQuery)))
    (query : string) (num_queries : Z) (learnings : list string) :
  0 <= num_queries ->
  let queries :=
    DeepResearch.generate_serp_queries system_prompt complete_queries
      query num_queries learnings in
  Z.of_nat (length queries) <= num_queries /\
  exists prompt,
    queries `prefix_of`
      match complete_queries system_prompt prompt num_queries with
      | inr (Some answered) => answered
      | _ => []
      end.
Proof.
  intros Hn queries. split.
  - by apply OrchestratorFacts.plan_length.
  - subst queries. unfold DeepResearch.generate_serp_queries.
    match goal with |- context [complete_queries _ ?p _] => exists p end.
    destruct (complete_queries _ _ _) as [e|[answered|]]; cbn [from_option id].
    + done.
    + apply OrchestratorFacts.list_slice_to_prefix.
    + apply OrchestratorFacts.list_slice_to_prefix.
Qed.

Lemma generate_serp_queries_bounded_witness :
  let queries :=
    DeepResearch.generate_serp_queries Stubs.system_prompt Stubs.complete_queries
      "topic" 1 [] in
  Z.of_nat (length queries) <= 1 /\
  exists prompt,
    queries `prefix_of`
      match Stubs.complete_queries Stubs.system_prompt prompt 1 with
      | inr (Some answered) => answered
      | _ => []
      end.
Proof.
  apply (generate_serp_queries_bounded Stubs.system_prompt Stubs.complete_queries
           "topic" 1 []).
  lia.
Defined.

(** X13.  [process_serp_result] is fail-soft: when no item of the search
    result has a non-empty [markdown] or [content] it returns empty lists
    whatever the completion service would answer, and when the completion
    service fails it returns empty lists as well. *)
Theorem process_serp_result_fail_soft (encoder : option (string -> nat))
    (CONTEXT_SIZE : Z) (system_prompt : string)
    (complete_learnings : string -> string -> Z -> Z ->
                          result (option (list string) * option (list string)))
    (query : string) (items : DeepResearch.SearchResponse)
    (num_learnings num_follow_up_questions : Z) :
  (forall item, item ∈ default [] items ->
                DeepResearch.truthy (DeepResearch.item_markdown item) = false /\
                DeepResearch.truthy (DeepResearch.item_content item) = false) \/
  (forall prompt, exists e,
     complete_learnings system_prompt prompt num_learnings num_follow_up_questions
     = inl e) ->
  DeepResearch.process_serp_result encoder CONTEXT_SIZE system_prompt
    complete_learnings query items num_learnings num_follow_up_questions
  = DeepResearch.mkProcessed [] [].
Proof.
  intros Hcase. unfold DeepResearch.process_serp_result.
  destruct (match items with Some l => _ | None => [] end) as [|c cs] eqn:Ec; [done|].
  destruct Hcase as [Hnone|Hdown].
  - exfalso. destruct items as [l|]; [|done]. cbn [from_option id] in Hnone.
    assert (flat_map (DeepResearch.item_contents encoder CONTEXT_SIZE) l = []) as Hnil.
    { clear Ec. induction l as [|item l IH]; [done|]. cbn [flat_map].
      rewrite IH by (intros it Hit; apply Hnone; by right).
      destruct (Hnone item) as [Hm Hc]; [by left|].
      unfold DeepResearch.item_contents. by rewrite Hm, Hc. }
    congruence.
  - match goal with |- context [complete_learnings _ ?p _ _] =>
      destruct (Hdown p) as [e ->] end. done.
Qed.

Lemma process_serp_result_fail_soft_witness :
  DeepResearch.process_serp_result Stubs.encoder Stubs.CONTEXT_SIZE
    Stubs.system_prompt Stubs.complete_learnings "capital of France"
    (Some [DeepResearch.mkItem (Some "http://b") None (Some "")]) 3 3
  = DeepResearch.mkProcessed [] [].
Proof.
  apply (process_serp_result_fail_soft Stubs.encoder Stubs.CONTEXT_SIZE
           Stubs.system_prompt Stubs.complete_learnings "capital of France"
           (Some [DeepResearch.mkItem (Some "http://b") None (Some "")]) 3 3).
  left. intros item Hitem. cbn [from_option id] in Hitem.
  apply list_elem_of_singleton in Hitem. subst item. split; reflexivity.
Defined.

(** X14.  A research call invents nothing: every returned learning is a
    seed learning or one that the completion service returned to an
    extraction, and every returned url is a seed url or the url of an item
    that the search service returned. *)
Theorem deep_research_provenance (encoder : option (string -> nat))
    (CONTEXT_SIZE : Z) (system_prompt : string)
    (complete_queries : string -> string -> Z ->
                        result (option (list DeepResearch.SerpQuery)))
    (complete_learnings : string -> string -> Z -> Z ->
                          result (option (list string) * option (list string)))
    (search : string -> Z -> result DeepResearch.SearchResponse)
    (q : string) (b d : Z) (L U : option (list string)) :
  exists r t,
    DeepResearch.deep_research encoder CONTEXT_SIZE system_prompt complete_queries
      complete_learnings search q b d L U = Some (r, t) /\
    (forall x, x ∈ DeepResearch.learnings r ->
               x ∈ default [] L \/
               Provenance.extracted system_prompt complete_learnings x) /\
    (forall u, u ∈ DeepResearch.visited_urls r ->
               u ∈ default [] U \/ Provenance.found search u).
Proof.
  unfold DeepResearch.deep_research.
  destruct (DeepResearchFacts.research_total encoder CONTEXT_SIZE system_prompt
              complete_queries complete_learnings search
              (DeepResearch.fuel_for d) q b d L U) as [[r t] Hrun]; [done|].
  exists r, t. split; [done|].
  by apply OrchestratorFacts.research_provenance in Hrun.
Qed.

(** X15.  The fan-out of a research call is bounded: for a breadth that is
    not negative, the number of invocations [k] calls below the root is at
    most [b * max 1 (b/2) * max 1 (b/4) * ...] with [k] factors. *)
Theorem deep_research_fan_out (encoder : option (string -> nat))
    (CONTEXT_SIZE : Z) (system_prompt : string)
    (complete_queries : string -> string -> Z ->
                        result (option (list DeepResearch.SerpQuery)))
    (complete_learnings : string -> string -> Z -> Z ->
                          result (option (list string) * option (list string)))
    (search : string -> Z -> result DeepResearch.SearchResponse)
    (q : string) (b d : Z) (L U : option (list string)) :
  0 <= b ->
  exists r t,
    DeepResearch.deep_research encoder CONTEXT_SIZE system_prompt complete_queries
      complete_learnings search q b d L U = Some (r, t) /\
    forall k : nat,
      Z.of_nat (length (DeepResearch.calls_at k t)) <= CallTreeBounds.fan_out b k.
Proof.
  intros Hb. unfold DeepResearch.deep_research.
  destruct (DeepResearchFacts.research_total encoder CONTEXT_SIZE system_prompt
              complete_queries complete_learnings search
              (DeepResearch.fuel_for d) q b d L U) as [[r t] Hrun]; [done|].
  exists r, t. split; [done|]. intros k.
  by eapply OrchestratorFacts.research_fan_out.
Qed.

Lemma deep_research_fan_out_witness :
  exists r t,
    DeepResearch.deep_research Stubs.encoder Stubs.CONTEXT_SIZE Stubs.system_prompt
      Stubs.complete_queries Stubs.complete_learnings Stubs.search_nothing
      "topic" 2 3 None None = Some (r, t) /\
    forall k : nat,
      Z.of_nat (length (DeepResearch.calls_at k t)) <= CallTreeBounds.fan_out 2 k.
Proof.
  apply (deep_research_fan_out Stubs.encoder Stubs.CONTEXT_SIZE Stubs.system_prompt
           Stubs.complete_queries Stubs.complete_learnings Stubs.search_nothing
           "topic" 2 3 None None).
  lia.
Defined.

(* ===================================================================== *)
(** ** Reports, feedback questions and the provider *)
(* ===================================================================== *)

Module ReportFacts.
Import PyStr PyStrFacts.

Lemma prefix_char c a s :
  String.prefix (String c "") (String a s) = true -> c = a.
Proof. cbn. destruct (ascii_dec c a); [done | discriminate]. Qed.

Lemma prefix_char_same c s : String.prefix (String c "") (String c s) = true.
Proof. cbn. destruct (ascii_dec c c); [by destruct s | done]. Qed.

(** Splitting at a one-character separator: a piece without the separator
    comes back whole. *)
Lemma split_char_app c x rest :
  contains (String c "") x = false ->
  split (String c "") (x +:+ String c rest) = x :: split (String c "") rest.
Proof.
  unfold split. induction x as [|a x IH]; intros Hx.
  - change ("" +:+ String c rest) with (String c rest). cbn [split_go].
    by rewrite prefix_char_same.
  - change (String a x +:+ String c rest) with (String a (x +:+ String c rest)).
    cbn [contains] in Hx. apply orb_false_elim in Hx as [Hp Hx].
    cbn [split_go].
    destruct (String.prefix (String c "") (String a (x +:+ String c rest))) eqn:Hp'.
    + apply prefix_char in Hp'. subst a. by rewrite prefix_char_same in Hp.
    + by rewrite IH.
Qed.

Lemma split_char_whole c x :
  contains (String c "") x = false -> split (String c "") x = [x].
Proof.
  unfold split. induction x as [|a x IH]; intros Hx; [done|].
  cbn [contains] in Hx. apply orb_false_elim in Hx as [Hp Hx].
  cbn [split_go]. rewrite Hp. by rewrite IH.
Qed.

(** Round trip: lines that hold no separator are recovered by [split]
    from their [join]. *)
Lemma split_join_char c (l : list string) :
  l <> [] ->
  (forall x, x ∈ l -> contains (String c "") x = false) ->
  split (String c "") (join (String c "") l) = l.
Proof.
  induction l as [|x l IH]; intros Hne Hall; [done|].
  destruct l as [|y l].
  - apply split_char_whole, Hall. by left.
  - change (join (String c "") (x :: y :: l))
      with (x +:+ String c (join (String c "") (y :: l))).
    rewrite split_char_app by (apply Hall; by left).
    rewrite IH; [done | done |]. intros z Hz. apply Hall. by right.
Qed.

Lemma contains_dash_line c u :
  c <> "-"%char -> c <> " "%char ->
  contains (String c "") u = false ->
  contains (String c "") ("- " +:+ u) = false.
Proof.
  intros H1 H2 Hu. change ("- " +:+ u) with (String "-" (String " " u)).
  cbn [contains]. rewrite Hu.
  cbn. destruct (ascii_dec c "-"); [done|]. destruct (ascii_dec c " "); done.
Qed.

End ReportFacts.

(** X16.  [write_final_report] either reports the failure of the
    completion service with the fixed text, or returns the report followed
    by a sources section that lists every visited url, in order, one per
    line: for urls without line breaks the lines of the section are exactly
    the urls, each behind a dash. *)
Theorem write_final_report_lists_sources (encoder : option (string -> nat))
    (CONTEXT_SIZE : Z) (system_prompt : string)
    (complete_report : string -> string -> result (option string))
    (prompt : string) (learnings visited_urls : list string) :
  visited_urls <> [] ->
  (forall u, u ∈ visited_urls -> PyStr.contains PyStr.nl u = false) ->
  let out :=
    Reports.write_final_report encoder CONTEXT_SIZE system_prompt complete_report
      prompt learnings visited_urls in
  out = "Error generating report" \/
  exists report lines,
    out = report +:+ PyStr.nl +:+ PyStr.nl +:+ "## Sources" +:+ PyStr.nl +:+ PyStr.nl
          +:+ lines /\
    PyStr.split PyStr.nl lines = map (fun u => "- " +:+ u) visited_urls.
Proof.
  intros Hne Hnl out. subst out. unfold Reports.write_final_report.
  destruct (complete_report _ _) as [e|res]; [by left|]. right.
  exists (default "" res),
         (PyStr.join PyStr.nl (map (fun u => "- " +:+ u) visited_urls)).
  split; [reflexivity|].
  apply ReportFacts.split_join_char.
  - by destruct visited_urls.
  - intros x Hx. apply list_elem_of_In, in_map_iff in Hx as (u & <- & Hu).
    apply ReportFacts.contains_dash_line; [discriminate | discriminate |].
    apply Hnl. by apply list_elem_of_In.
Qed.

Lemma write_final_report_lists_sources_witness :
  let out :=
    Reports.write_final_report Stubs.encoder Stubs.CONTEXT_SIZE Stubs.system_prompt
      FrontStubs.complete_report "capital of France"
      ["Paris is the capital of France"] ["http://a"; "http://b"] in
  out = "Error generating report" \/
  exists report lines,
    out = report +:+ PyStr.nl +:+ PyStr.nl +:+ "## Sources" +:+ PyStr.nl +:+ PyStr.nl
          +:+ lines /\
    PyStr.split PyStr.nl lines = map (fun u => "- " +:+ u) ["http://a"; "http://b"].
Proof.
  apply (write_final_report_lists_sources Stubs.encoder Stubs.CONTEXT_SIZE
           Stubs.system_prompt FrontStubs.complete_report "capital of France"
           ["Paris is the capital of France"] ["http://a"; "http://b"]).
  - discriminate.
  - intros u Hu. apply elem_of_cons in Hu as [->|Hu]; [reflexivity|].
    apply list_elem_of_singleton in Hu. subst u. reflexivity.
Defined.

(** X17.  [generate_feedback] returns at most [num_questions] questions
    when [num_questions] is not negative, always a prefix of the list the
    completion service answered with, and the empty list when the service
    fails. *)
Theorem generate_feedback_bounded (system_prompt : string)
    (complete_questions : string -> string -> Z -> result (option (list string)))
    (query : string) (num_questions : Z) :
  0 <= num_questions ->
  let questions :=
    Reports.generate_feedback system_prompt complete_questions query num_questions in
  Z.of_nat (length questions) <= num_questions /\
  exists prompt,
    questions `prefix_of`
      match complete_questions system_prompt prompt num_questions with
      | inr (Some answered) => answered
      | _ => []
      end.
Proof.
  intros Hn questions. subst questions. unfold Reports.generate_feedback.
  match goal with |- context [complete_questions _ ?p _] =>
    assert (exists prompt, prompt = p) as [prompt Hp] by eauto;
    rewrite <- Hp end.
  split.
  - destruct (complete_questions _ _ _) as [e|res]; [simpl; lia|].
    by apply OrchestratorFacts.list_slice_to_length.
  - exists prompt.
    destruct (complete_questions _ _ _) as [e|[answered|]]; cbn [from_option id].
    + done.
    + apply OrchestratorFacts.list_slice_to_prefix.
    + apply OrchestratorFacts.list_slice_to_prefix.
Qed.

Lemma generate_feedback_bounded_witness :
  let questions :=
    Reports.generate_feedback Stubs.system_prompt
      FrontStubs.complete_questions "topic" 3 in
  Z.of_nat (length questions) <= 3 /\
  exists prompt,
    questions `prefix_of`
      match FrontStubs.complete_questions Stubs.system_prompt prompt 3 with
      | inr (Some answered) => answered
      | _ => []
      end.
Proof.
  apply (generate_feedback_bounded Stubs.system_prompt
           FrontStubs.complete_questions "topic" 3).
  lia.
Defined.

(** X18.  [get_model] on a provider built from the environment raises
    [ValueError] exactly when none of [OPENAI_KEY], [NVIDIA_API_KEY] and
    [FIREWORKS_KEY] is set to a non-empty value; [CUSTOM_MODEL] alone does
    not give a model. *)
Theorem get_model_raises_iff_no_key (env : AIProvider.Environ) :
  (exists msg,
     AIProvider.get_model env (AIProvider.init env) = inl (ValueError msg)) <->
  AIProvider.is_set (AIProvider.OPENAI_KEY env) = false /\
  AIProvider.is_set (AIProvider.NVIDIA_API_KEY env) = false /\
  AIProvider.is_set (AIProvider.FIREWORKS_KEY env) = false.
Proof.
  unfold AIProvider.get_model, AIProvider.init. cbn.
  destruct (AIProvider.is_set (AIProvider.OPENAI_KEY env));
    destruct (AIProvider.is_set (AIProvider.NVIDIA_API_KEY env));
    destruct (AIProvider.is_set (AIProvider.FIREWORKS_KEY env));
    destruct (AIProvider.is_set (AIProvider.CUSTOM_MODEL env)); cbn;
    split; try (intros [msg Hm]; discriminate);
    try (intros (H1 & H2 & H3); discriminate);
    try (intros _; by eexists); try done.
Qed.

(** X19.  With no provider key in the environment nothing is sent to a
    completion service and research still returns: [generate_object] raises
    before any call of [create], the planner yields no query, and
    [deep_research] hands back the seed learnings and urls. *)
Theorem deep_research_without_key_returns_seed
    (Schema Response : Type)
    (create : AIProvider.Client -> AIProvider.Request Schema -> result Response)
    (env : AIProvider.Environ)
    (queries_schema : Z -> Schema)
    (parse_queries : Response -> result (option (list DeepResearch.SerpQuery)))
    (encoder : option (string -> nat)) (CONTEXT_SIZE : Z) (system_prompt : string)
    (complete_learnings : string -> string -> Z -> Z ->
                          result (option (list string) * option (list string)))
    (search : string -> Z -> result DeepResearch.SearchResponse)
    (q : string) (b d : Z) (L U : option (list string)) :
  AIProvider.is_set (AIProvider.OPENAI_KEY env) = false ->
  AIProvider.is_set (AIProvider.NVIDIA_API_KEY env) = false ->
  AIProvider.is_set (AIProvider.FIREWORKS_KEY env) = false ->
  let complete_queries := fun sp p n =>
    AIProvider.complete Schema Response create env (AIProvider.init env)
      parse_queries sp p (queries_schema n) 60 in
  DeepResearch.deep_research encoder CONTEXT_SIZE system_prompt complete_queries
    complete_learnings search q b d L U
  = Some (DeepResearch.mkResearchResult (default [] L) (default [] U),
          DeepResearch.Call b d []).
Proof.
  intros H1 H2 H3 complete_queries.
  assert (forall sp p n, exists e, complete_queries sp p n = inl e) as Hdown.
  { intros sp p n. subst complete_queries. cbv beta.
    unfold AIProvider.complete, AIProvider.generate_object,
      AIProvider.get_model, AIProvider.init.
    cbn [AIProvider.openai_client AIProvider.nvidia_client
           AIProvider.fireworks_client AIProvider.custom_client].
    rewrite H1, H2, H3.
    destruct (AIProvider.is_set (AIProvider.CUSTOM_MODEL env)); by eexists. }
  unfold DeepResearch.deep_research. rewrite fuel_for_succ.
  cbn [DeepResearch.deep_research_fuel].
  unfold DeepResearch.generate_serp_queries.
  match goal with |- context [complete_queries ?sp ?p ?n] =>
    destruct (Hdown sp p n) as [e ->] end.
  done.
Qed.

Lemma deep_research_without_key_returns_seed_witness :
  DeepResearch.deep_research Stubs.encoder Stubs.CONTEXT_SIZE Stubs.system_prompt
    (fun sp p n =>
       AIProvider.complete unit unit (fun _ _ => inr tt)
         FrontStubs.no_key (AIProvider.init FrontStubs.no_key)
         (fun _ => inr (Some [DeepResearch.mkSerpQuery "good" "goal"]))
         sp p tt 60)
    Stubs.complete_learnings Stubs.search "topic" 2 2 (Some ["known"]) None
  = Some (DeepResearch.mkResearchResult ["known"] [], DeepResearch.Call 2 2 []).
Proof.
  apply (deep_research_without_key_returns_seed unit unit (fun _ _ => inr tt)
           FrontStubs.no_key
           (fun _ => tt)
           (fun _ => inr (Some [DeepResearch.mkSerpQuery "good" "goal"]))
           Stubs.encoder Stubs.CONTEXT_SIZE Stubs.system_prompt
           Stubs.complete_learnings Stubs.search "topic" 2 2 (Some ["known"]) None);
    reflexivity.
Defined.

(* ===================================================================== *)
(** ** The tool handlers *)
(* ===================================================================== *)

(** X20.  [deep_web_research] always answers, and it sees its arguments only
    through their validated values: a call behaves exactly like the call
    with the breadth clamped to 1..10, the depth clamped to 1..5 and any
    output type other than [answer] read as [report], so research never
    runs at a depth below one or above five. *)
Theorem deep_web_research_validates_arguments
    (encoder : option (string -> nat)) (CONTEXT_SIZE : Z) (system_prompt : string)
    (complete_queries : string -> string -> Z ->
                        result (option (list DeepResearch.SerpQuery)))
    (complete_learnings : string -> string -> Z -> Z ->
                          result (option (list string) * option (list string)))
    (search : string -> Z -> result DeepResearch.SearchResponse)
    (complete_report complete_answer : string -> string -> result (option string))
    (complete_questions : string -> string -> Z -> result (option (list string)))
    (arguments : McpServer.Arguments) :
  let tool :=
    McpServer.deep_web_research encoder CONTEXT_SIZE system_prompt complete_queries
      complete_learnings search complete_report complete_answer complete_questions in
  let validated :=
    McpServer.mkArguments
      (McpServer.a_query arguments)
      (Some (Z.max 1 (Z.min 10 (default 3 (McpServer.a_breadth arguments)))))
      (Some (Z.max 1 (Z.min 5 (default 2 (McpServer.a_depth arguments)))))
      (Some (if decide (default "report" (McpServer.a_output_type arguments) = "answer")
             then "answer" else "report"))
      (McpServer.a_generate_followup arguments)
      (McpServer.a_num_questions arguments) in
  (exists text, tool arguments = Some text) /\
  tool arguments = tool validated.
Proof.
  intros tool validated. subst tool validated.
  unfold McpServer.deep_web_research. cbn [McpServer.a_query McpServer.a_breadth
    McpServer.a_depth McpServer.a_output_type McpServer.a_generate_followup
    from_option id].
  set (b := Z.max 1 (Z.min 10 (default 3 (McpServer.a_breadth arguments)))).
  set (d := Z.max 1 (Z.min 5 (default 2 (McpServer.a_depth arguments)))).
  replace (Z.max 1 (Z.min 10 b)) with b by (subst b; lia).
  replace (Z.max 1 (Z.min 5 d)) with d by (subst d; lia).
  set (ot := default "report" (McpServer.a_output_type arguments)).
  assert ((if decide
                (((if decide (ot = "answer") then "answer" else "report") : string)
                 = "report")
           then (if decide (ot = "answer") then "answer" else "report")
           else if decide
                     (((if decide (ot = "answer") then "answer" else "report") : string)
                      = "answer")
                then (if decide (ot = "answer") then "answer" else "report")
                else "report")
          = (if decide (ot = "report") then ot
             else if decide (ot = "answer") then ot else "report")) as ->.
  { destruct (decide (ot = "answer")) as [->|Hna]; [done|].
    rewrite decide_True by done. by destruct (decide (ot = "report")) as [->|]. }
  split; [|done].
  destruct (decide (default "" (McpServer.a_query arguments) = "")); [by eexists|].
  match goal with
  | |- context [DeepResearch.deep_research _ _ _ _ _ _ ?q _ _ _ _] =>
      destruct (DeepResearchFacts.research_total encoder CONTEXT_SIZE system_prompt
                  complete_queries complete_learnings search
                  (DeepResearch.fuel_for d) q b d None None) as [[r t] Hrun]; [done|]
  end.
  unfold DeepResearch.deep_research. rewrite Hrun. cbn.
  match goal with |- exists _, (if ?c then _ else _) = _ => destruct c end;
    by eexists.
Qed.

(** X21.  [generate_research_questions] never lists more than ten
    questions, whatever number is asked for and whatever the completion
    service answers: for a non-empty query the text is either the fixed
    sentence for no question, or the heading followed by the numbered
    questions, at most ten of them. *)
Theorem generate_research_questions_at_most_ten (system_prompt : string)
    (complete_questions : string -> string -> Z -> result (option (list string)))
    (arguments : McpServer.Arguments) :
  default "" (McpServer.a_query arguments) <> "" ->
  let query := default "" (McpServer.a_query arguments) in
  let text :=
    McpServer.generate_research_questions system_prompt complete_questions arguments in
  text = "The research query '" +:+ query
         +:+ "' appears to be sufficiently clear and specific. No additional clarifying questions are needed."
  \/
  exists questions,
    (0 < length questions <= 10)%nat /\
    text = "**Follow-up Research Questions for:** " +:+ query
           +:+ PyStr.nl +:+ PyStr.nl
           +:+ McpServer.numbered 1 questions +:+ PyStr.nl
           +:+ "*These questions can help refine your research direction and ensure comprehensive coverage of the topic.*".
Proof.
  intros Hq query text. subst text query.
  unfold McpServer.generate_research_questions. rewrite decide_False by done.
  set (n := Z.max 1 (Z.min 10 (default 3 (McpServer.a_num_questions arguments)))).
  pose proof (OrchestratorFacts.list_slice_to_length (A := string) n) as Hlen.
  unfold Reports.generate_feedback.
  destruct (complete_questions _ _ _) as [e|res]; [by left|].
  specialize (Hlen (default [] res) ltac:(subst n; lia)).
  destruct (PyStr.list_slice_to n (default [] res)) as [|q0 qs] eqn:Eq; [by left|].
  right. exists (q0 :: qs). split; [|done].
  subst n. simpl length in *. lia.
Qed.

Lemma generate_research_questions_at_most_ten_witness :
  let arguments := McpServer.mkArguments (Some "topic") None None None None (Some 50) in
  let text :=
    McpServer.generate_research_questions Stubs.system_prompt
      FrontStubs.complete_questions arguments in
  text = "The research query '" +:+ "topic"
         +:+ "' appears to be sufficiently clear and specific. No additional clarifying questions are needed."
  \/
  exists questions,
    (0 < length questions <= 10)%nat /\
    text = "**Follow-up Research Questions for:** " +:+ "topic"
           +:+ PyStr.nl +:+ PyStr.nl
           +:+ McpServer.numbered 1 questions +:+ PyStr.nl
           +:+ "*These questions can help refine your research direction and ensure comprehensive coverage of the topic.*".
Proof.
  apply (generate_research_questions_at_most_ten Stubs.system_prompt
           FrontStubs.complete_questions
           (McpServer.mkArguments (Some "topic") None None None None (Some 50))).
  discriminate.
Defined.

(* ===================================================================== *)
(** ** Two more edges: a chunk size of one, and extracted learnings *)
(* ===================================================================== *)

Module EdgeFacts.
Import PyStr PyStrFacts TextSplitter.

Lemma prefix_of_empty s : String.prefix s "" = true -> s = "".
Proof. by destruct s. Qed.

(** A separator found in one character of a text is found in the text. *)
Lemma contains_first_char s a rest :
  s <> "" -> contains s (String a "") = true -> contains s (String a rest) = true.
Proof.
  intros Hs Hc. cbn [contains] in Hc.
  apply orb_true_iff in Hc as [Hp|Hp].
  - destruct s as [|c s']; [done|]. cbn in Hp.
    destruct (ascii_dec c a) as [->|]; [|discriminate].
    apply prefix_of_empty in Hp as ->.
    cbn [contains]. by rewrite ReportFacts.prefix_char_same.
  - rewrite orb_false_r in Hp. by apply prefix_of_empty in Hp.
Qed.

Lemma split_text_no_return self fuel : forall text,
  chunk_size self <= 1 ->
  "" ∈ separators self ->
  text <> "" ->
  (forall s, s ∈ separators self -> s <> "" -> contains s text = false) ->
  split_text fuel self text = inl RecursionError.
Proof.
  induction fuel as [|fuel IH]; intros text Hcs Hin Hne Hnone; [done|].
  cbn [split_text]. unfold choose_separator.
  rewrite (ChunkFacts.first_separator_only_empty _ _ Hin Hnone).
  rewrite decide_True by done.
  destruct text as [|a rest]; [done|]. cbn [chars split_loop].
  replace (len (String a "") <? chunk_size self) with false
    by (symmetry; apply Z.ltb_ge; unfold len; simpl; lia).
  rewrite IH; [done | done | done | done |].
  intros s Hs Hsne. destruct (contains s (String a "")) eqn:Hc; [|done].
  apply (contains_first_char s a rest Hsne) in Hc.
  by rewrite (Hnone s Hs Hsne) in Hc.
Qed.

End EdgeFacts.

(** X22.  A splitter with a chunk size of one (or less) passes no text
    through: on a non-empty text that holds none of the non-empty
    separators [split_text] calls itself on the first character without
    end, so that every stack depth ends in [RecursionError]. *)
Theorem split_text_chunk_size_one_never_returns (self : TextSplitter.t)
    (fuel : nat) (text : string) :
  TextSplitter.chunk_size self <= 1 ->
  "" ∈ TextSplitter.separators self ->
  text <> "" ->
  (forall s, s ∈ TextSplitter.separators self -> s <> "" ->
             PyStr.contains s text = false) ->
  TextSplitter.split_text fuel self text = inl RecursionError.
Proof. apply EdgeFacts.split_text_no_return. Qed.

Lemma split_text_chunk_size_one_never_returns_witness :
  (exists self, TextSplitter.init 1 0 (Some [" "; ""]) = inr self /\
                TextSplitter.split_text 1000 self "abc" = inl RecursionError).
Proof.
  exists (TextSplitter.mk 1 0 [" "; ""]). split; [reflexivity|].
  apply (split_text_chunk_size_one_never_returns (TextSplitter.mk 1 0 [" "; ""])
           1000 "abc").
  - simpl. lia.
  - simpl. apply list_elem_of_further, list_elem_of_here.
  - discriminate.
  - intros s Hs Hne. simpl in Hs.
    apply elem_of_cons in Hs as [->|Hs]; [reflexivity|].
    apply list_elem_of_singleton in Hs. contradiction.
Defined.


